(** * gLabels-qt: the label document model and the template registry

    A shallow embedding of [LabelModel.cpp] (object list, selection,
    stacking order, alignment) and of the lookup functions of [Db.cpp],
    with the properties of the specification stated over it.

    Conventions of the embedding.
    - A [double] is an exact rational ([Q]); rounding, infinities and NaN
      are not modelled.  The concrete selections below have integer
      coordinates, on which the differences and halves that the code takes
      are exact in binary64 as well; the one mean that is not (290/3) lies
      far from any tie.
    - A [LabelModelObject*] is an address ([ptr]) into a store of objects;
      [mObjectList] is a list of addresses, so that the same object may
      occur in it more than once, as a [QList] of pointers allows.
    - A Qt signal emitted by the model is appended to a log.
    - Reaching the closing brace of a function that must return a value
      gives no value: the call is [Undefined], and so is every caller that
      needs the value. *)

From Stdlib Require Import List Bool Arith ZArith QArith Qabs Qminmax Lia String.
Import ListNotations.

Set Implicit Arguments.

(** ** Results of calls *)

Inductive outcome (A : Type) : Type :=
| Returned (a : A)
| Undefined.

Arguments Returned {A} a.
Arguments Undefined {A}.

Definition bind {A B : Type} (c : outcome A) (k : A -> outcome B) : outcome B :=
  match c with
  | Returned a => k a
  | Undefined => Undefined
  end.

Notation "x <- c ;; k" := (bind c (fun x => k))
  (at level 61, c at next level, right associativity).

(** [foreach (x, l) body]: Qt's loop over a container, threading the state. *)
Definition foreach {A S : Type} (l : list A) (body : A -> S -> S) (s : S) : S :=
  fold_left (fun acc a => body a acc) l s.

(** ** Numbers *)

Definition double := Q.

(** [a < b] on doubles. *)
Definition Qltb (a b : double) : bool := negb (Qle_bool b a).

(** [std::min(a, b)] is [(b < a) ? b : a]; [std::max(a, b)] is [(a < b) ? b : a]. *)
Definition std_min (a b : double) : double := if Qltb b a then b else a.
Definition std_max (a b : double) : double := if Qltb a b then b else a.

Definition fabs (a : double) : double := Qabs a.

(** ** LabelRegion *)

Record LabelRegion : Type := mkRegion {
  x1 : double;
  y1 : double;
  x2 : double;
  y2 : double
}.

Arguments mkRegion (x1 y1 x2 y2)%_Q.

(** ** LabelModelObject *)

(** Modelled from the spec: the class [LabelModelObject] ([LabelModelObject.h]
    and [.cpp] are not among the sources).  The specification gives an object
    a position (x, y in page units), an extent (its bounding [LabelRegion] in
    page coordinates) and a selected flag. *)
Record LabelModelObject : Type := mkObject {
  mX0 : double;
  mY0 : double;
  mExtent : LabelRegion;
  mSelectedFlag : bool
}.

(** Modelled from the spec: [isSelected], [select] and [unselect] read and
    toggle the selected flag, and nothing else. *)
Definition isSelected (o : LabelModelObject) : bool := mSelectedFlag o.

Definition select (o : LabelModelObject) : LabelModelObject :=
  {| mX0 := mX0 o; mY0 := mY0 o; mExtent := mExtent o; mSelectedFlag := true |}.

Definition unselect (o : LabelModelObject) : LabelModelObject :=
  {| mX0 := mX0 o; mY0 := mY0 o; mExtent := mExtent o; mSelectedFlag := false |}.

(** Modelled from the spec: [getExtent] is the bounding region of the object
    in page coordinates. *)
Definition getExtent (o : LabelModelObject) : LabelRegion := mExtent o.

(** Modelled from the spec: [setPositionRelative(dx, dy)] translates the
    object, and with it its extent, by the offset (dx, dy). *)
Definition translate (dx dy : double) (r : LabelRegion) : LabelRegion :=
  {| x1 := x1 r + dx; y1 := y1 r + dy; x2 := x2 r + dx; y2 := y2 r + dy |}.

Definition setPositionRelative (dx dy : double) (o : LabelModelObject)
  : LabelModelObject :=
  {| mX0 := mX0 o + dx; mY0 := mY0 o + dy;
     mExtent := translate dx dy (mExtent o);
     mSelectedFlag := mSelectedFlag o |}.

(** ** The store of objects *)

Definition ptr := nat.

Definition store := ptr -> LabelModelObject.

Definition upd (h : store) (p : ptr) (o : LabelModelObject) : store :=
  fun q => if Nat.eqb q p then o else h q.

(** [object->method()] for a method that changes the object. *)
Definition call (f : LabelModelObject -> LabelModelObject) (p : ptr) (h : store)
  : store :=
  upd h p (f (h p)).

(** ** Signals *)

Inductive Signal : Type :=
| objectAdded (object : ptr)
| objectDeleted (object : ptr)
| objectChanged (object : ptr)
| objectMoved (object : ptr)
| objectToTop (object : ptr)
| objectToBottom (object : ptr)
| selectionChanged
| changed.

(** ** LabelModel *)

Record LabelModel : Type := mkModel {
  objects : store;
  mObjectList : list ptr;
  mModified : bool;
  emitted : list Signal
}.

Definition with_objects (h : store) (m : LabelModel) : LabelModel :=
  {| objects := h; mObjectList := mObjectList m;
     mModified := mModified m; emitted := emitted m |}.

Definition with_list (l : list ptr) (m : LabelModel) : LabelModel :=
  {| objects := objects m; mObjectList := l;
     mModified := mModified m; emitted := emitted m |}.

Definition with_modified (b : bool) (m : LabelModel) : LabelModel :=
  {| objects := objects m; mObjectList := mObjectList m;
     mModified := b; emitted := emitted m |}.

Definition emit (s : Signal) (m : LabelModel) : LabelModel :=
  {| objects := objects m; mObjectList := mObjectList m;
     mModified := mModified m; emitted := emitted m ++ [s] |}.

(** [object->method()] inside the model. *)
Definition on_object (f : LabelModelObject -> LabelModelObject) (p : ptr)
  (m : LabelModel) : LabelModel :=
  with_objects (call f p (objects m)) m.

(** [QList::removeOne]: drops the first occurrence of the value, if any. *)
Fixpoint removeOne (x : ptr) (l : list ptr) : list ptr :=
  match l with
  | [] => []
  | y :: t => if Nat.eqb y x then t else y :: removeOne x t
  end.

(** *** Adding and deleting *)

(** [setParent] and the two [connect] calls concern Qt's object tree and the
    object's own signals; they do not touch the state modelled here. *)
Definition addObject (object : ptr) (m : LabelModel) : LabelModel :=
  let m := with_list (mObjectList m ++ [object]) m in
  let m := with_modified true m in
  let m := emit (objectAdded object) m in
  emit changed m.

Definition deleteObject (object : ptr) (m : LabelModel) : LabelModel :=
  let m := on_object unselect object m in
  let m := with_list (removeOne object (mObjectList m)) m in
  let m := with_modified true m in
  let m := emit (objectDeleted object) m in
  emit changed m.

(** *** Selection *)

Definition selectObject (object : ptr) (m : LabelModel) : LabelModel :=
  let m := on_object select object m in
  emit selectionChanged m.

Definition unselectObject (object : ptr) (m : LabelModel) : LabelModel :=
  let m := on_object unselect object m in
  emit selectionChanged m.

Definition selectAll (m : LabelModel) : LabelModel :=
  let m := foreach (mObjectList m) (fun object m => on_object select object m) m in
  emit selectionChanged m.

Definition unselectAll (m : LabelModel) : LabelModel :=
  let m := foreach (mObjectList m) (fun object m => on_object unselect object m) m in
  emit selectionChanged m.

(** The test of [selectRegion] on one extent, against the bounds rX1..rY2. *)
Definition inside (rX1 rY1 rX2 rY2 : double) (objectExtent : LabelRegion) : bool :=
  Qle_bool rX1 (x1 objectExtent) &&
  Qle_bool (x2 objectExtent) rX2 &&
  Qle_bool rY1 (y1 objectExtent) &&
  Qle_bool (y2 objectExtent) rY2.

Definition selectRegion (region : LabelRegion) (m : LabelModel) : LabelModel :=
  let rX1 := std_min (x1 region) (x2 region) in
  let rY1 := std_min (y1 region) (y2 region) in
  let rX2 := std_max (x1 region) (x2 region) in
  let rY2 := std_max (y1 region) (y2 region) in
  let m :=
    foreach (mObjectList m)
      (fun object m =>
         let objectExtent := getExtent (objects m object) in
         if inside rX1 rY1 rX2 rY2 objectExtent
         then on_object select object m
         else m) m in
  emit selectionChanged m.

Fixpoint isSelectionEmpty_loop (h : store) (l : list ptr) : bool :=
  match l with
  | [] => true
  | object :: t =>
      if isSelected (h object) then false else isSelectionEmpty_loop h t
  end.

Definition isSelectionEmpty (m : LabelModel) : bool :=
  isSelectionEmpty_loop (objects m) (mObjectList m).

Fixpoint isSelectionAtomic_loop (h : store) (l : list ptr) (nSelected : Z) : bool :=
  match l with
  | [] => (nSelected =? 1)%Z
  | object :: t =>
      if isSelected (h object)
      then
        let nSelected := (nSelected + 1)%Z in
        if (nSelected >? 1)%Z then false else isSelectionAtomic_loop h t nSelected
      else isSelectionAtomic_loop h t nSelected
  end.

Definition isSelectionAtomic (m : LabelModel) : bool :=
  isSelectionAtomic_loop (objects m) (mObjectList m) 0%Z.

(** The local [selectedList] that [getSelection] builds. *)
Definition selectedList (m : LabelModel) : list ptr :=
  foreach (mObjectList m)
    (fun object acc => if isSelected (objects m object) then acc ++ [object] else acc)
    [].

(** [getSelection] builds [selectedList] and ends without a [return]. *)
Definition getSelection (m : LabelModel) : outcome (list ptr) :=
  let _ := selectedList m in
  Undefined.

(** [getFirstSelectedObject] returns inside the loop; after the loop the
    function ends without a [return]. *)
Fixpoint getFirstSelectedObject_loop (h : store) (l : list ptr) : outcome ptr :=
  match l with
  | [] => Undefined
  | object :: t =>
      if isSelected (h object) then Returned object
      else getFirstSelectedObject_loop h t
  end.

Definition getFirstSelectedObject (m : LabelModel) : outcome ptr :=
  getFirstSelectedObject_loop (objects m) (mObjectList m).

(** *** Stacking order *)

(** The body of [raiseSelectionToTop] after [selectedList] has been obtained. *)
Definition raiseSelectionToTop_given (selectedList : list ptr) (m : LabelModel)
  : LabelModel :=
  let m :=
    foreach selectedList
      (fun object m => with_list (removeOne object (mObjectList m)) m) m in
  let m :=
    foreach selectedList
      (fun object m =>
         let m := with_list (mObjectList m ++ [object]) m in
         emit (objectToTop object) m) m in
  let m := with_modified true m in
  emit changed m.

Definition raiseSelectionToTop (m : LabelModel) : outcome LabelModel :=
  selectedList <- getSelection m ;;
  Returned (raiseSelectionToTop_given selectedList m).

(** The body of [lowerSelectionToBottom] after [selectedList] has been obtained. *)
Definition lowerSelectionToBottom_given (selectedList : list ptr) (m : LabelModel)
  : LabelModel :=
  let m :=
    foreach selectedList
      (fun object m => with_list (removeOne object (mObjectList m)) m) m in
  let m :=
    foreach selectedList
      (fun object m =>
         let m := with_list (object :: mObjectList m) m in
         emit (objectToBottom object) m) m in
  let m := with_modified true m in
  emit changed m.

Definition lowerSelectionToBottom (m : LabelModel) : outcome LabelModel :=
  selectedList <- getSelection m ;;
  Returned (lowerSelectionToBottom_given selectedList m).

(** *** Alignment *)

Local Open Scope Q_scope.

(** The body of [alignSelectionLeft] after [selectedList] has been obtained. *)
Definition alignSelectionLeft_given (selectedList : list ptr) (m : LabelModel)
  : LabelModel :=
  let x1_min :=
    foreach selectedList
      (fun object x1_min =>
         let r := getExtent (objects m object) in
         if Qltb (x1 r) x1_min then x1 r else x1_min) 7200 in
  let m :=
    foreach selectedList
      (fun object m =>
         let r := getExtent (objects m object) in
         let dx := x1_min - x1 r in
         on_object (setPositionRelative dx 0) object m) m in
  let m := with_modified true m in
  emit changed m.

Definition alignSelectionLeft (m : LabelModel) : outcome LabelModel :=
  if isSelectionEmpty m || isSelectionAtomic m then Returned m
  else
    selectedList <- getSelection m ;;
    Returned (alignSelectionLeft_given selectedList m).

(** The body of [alignSelectionRight] after [selectedList] has been obtained. *)
Definition alignSelectionRight_given (selectedList : list ptr) (m : LabelModel)
  : LabelModel :=
  let x1_max :=
    foreach selectedList
      (fun object x1_max =>
         let r := getExtent (objects m object) in
         if Qltb x1_max (x1 r) then x1 r else x1_max) (-7200) in
  let m :=
    foreach selectedList
      (fun object m =>
         let r := getExtent (objects m object) in
         let dx := x1_max - x1 r in
         on_object (setPositionRelative dx 0) object m) m in
  let m := with_modified true m in
  emit changed m.

Definition alignSelectionRight (m : LabelModel) : outcome LabelModel :=
  if isSelectionEmpty m || isSelectionAtomic m then Returned m
  else
    selectedList <- getSelection m ;;
    Returned (alignSelectionRight_given selectedList m).

(** [(r.x1() + r.x2()) / 2.0] *)
Definition hcenter (r : LabelRegion) : double := (x1 r + x2 r) / 2.

(** [(r.y1() + r.y2()) / 2.0] *)
Definition vcenter (r : LabelRegion) : double := (y1 r + y2 r) / 2.

(** First loop of [alignSelectionHCenter]: the pair (xsum, n). *)
Definition hcenter_sum (h : store) (selectedList : list ptr) : double * Z :=
  foreach selectedList
    (fun object '(xsum, n) =>
       let r := getExtent (h object) in
       (xsum + hcenter r, (n + 1)%Z)) (0, 0%Z).

(** Second loop of [alignSelectionHCenter]: the pair (xcenter, dxmin). *)
Definition hcenter_closest (h : store) (selectedList : list ptr) (xavg : double)
  : double * double :=
  let xcenter := 7200 in
  let dxmin := fabs (xavg - xcenter) in
  foreach selectedList
    (fun object '(xcenter, dxmin) =>
       let r := getExtent (h object) in
       let dx := fabs (xavg - hcenter r) in
       if Qltb dx dxmin then (hcenter r, dx) else (xcenter, dxmin))
    (xcenter, dxmin).

(** The body of [alignSelectionHCenter] after [selectedList] has been obtained. *)
Definition alignSelectionHCenter_given (selectedList : list ptr) (m : LabelModel)
  : LabelModel :=
  let '(xsum, n) := hcenter_sum (objects m) selectedList in
  let xavg := xsum / inject_Z n in
  let '(xcenter, _) := hcenter_closest (objects m) selectedList xavg in
  let m :=
    foreach selectedList
      (fun object m =>
         let r := getExtent (objects m object) in
         let dx := xcenter - hcenter r in
         on_object (setPositionRelative dx 0) object m) m in
  let m := with_modified true m in
  emit changed m.

Definition alignSelectionHCenter (m : LabelModel) : outcome LabelModel :=
  if isSelectionEmpty m || isSelectionAtomic m then Returned m
  else
    selectedList <- getSelection m ;;
    Returned (alignSelectionHCenter_given selectedList m).

Local Close Scope Q_scope.

(** * The registry of papers, categories, vendors and templates ([Db.cpp]) *)

Module Db.

(** A [QString] is null, or holds characters (possibly none).  A null string
    is empty, and [==] compares the characters, so that null equals empty. *)
Inductive QString : Type :=
| QNull
| QStr (s : string).

Definition chars (q : QString) : string :=
  match q with
  | QNull => EmptyString
  | QStr s => s
  end.

Definition isNull (q : QString) : bool :=
  match q with
  | QNull => true
  | QStr _ => false
  end.

Definition isEmpty (q : QString) : bool := String.eqb (chars q) EmptyString.

Definition qeqb (a b : QString) : bool := String.eqb (chars a) (chars b).

(** [const QString empty] of the anonymous namespace. *)
Definition empty : QString := QStr EmptyString.

(** The entries.  Their classes are declared outside [Db.cpp]; only the
    accessors that [Db.cpp] calls are kept. *)
Module Paper.
Record t : Type := mk { id : QString; name : QString }.
End Paper.

Module Category.
Record t : Type := mk { id : QString; name : QString }.
End Category.

Module Vendor.
Record t : Type := mk { name : QString; url : QString }.
End Vendor.

Module Template.
Record t : Type := mk { brand : QString; part : QString; name : QString }.
End Template.

(** The static data of [Db].  A pointer into a registry list is modelled by
    the entry itself, [NULL] by [None]. *)
Record Db : Type := mkDb {
  mPapers : list Paper.t;
  mCategories : list Category.t;
  mVendors : list Vendor.t;
  mTemplates : list Template.t;
  mPaperNameOther : QString
}.

(** [QList::first()]: the list must not be empty. *)
Definition first {E : Type} (l : list E) : outcome E :=
  match l with
  | [] => Undefined
  | e :: _ => Returned e
  end.

(** [foreach (e, l) { if (test e) return e; }], [None] when the loop ends. *)
Fixpoint find_first {E : Type} (test : E -> bool) (l : list E) : option E :=
  match l with
  | [] => None
  | e :: t => if test e then Some e else find_first test t
  end.

(** The calls of [qWarning] and [qDebug] only write to the log of the
    application and are left out. *)

Definition lookupPaperFromName (db : Db) (name : QString) : outcome (option Paper.t) :=
  if isNull name || isEmpty name
  then paper <- first (mPapers db) ;; Returned (Some paper)
  else Returned (find_first (fun paper => qeqb (Paper.name paper) name) (mPapers db)).

Definition lookupPaperFromId (db : Db) (id : QString) : outcome (option Paper.t) :=
  if isNull id || isEmpty id
  then paper <- first (mPapers db) ;; Returned (Some paper)
  else Returned (find_first (fun paper => qeqb (Paper.id paper) id) (mPapers db)).

Definition lookupPaperIdFromName (db : Db) (name : QString) : outcome QString :=
  if negb (isNull name) && negb (isEmpty name)
  then
    paper <- lookupPaperFromName db name ;;
    match paper with
    | Some paper => Returned (Paper.id paper)
    | None => Returned empty
    end
  else Returned empty.

Definition isPaperIdOther (id : QString) : bool := qeqb id (QStr "Other").

Definition lookupPaperNameFromId (db : Db) (id : QString) : outcome QString :=
  if negb (isNull id) && negb (isEmpty id)
  then
    if isPaperIdOther id then Returned (mPaperNameOther db)
    else
      paper <- lookupPaperFromId db id ;;
      match paper with
      | Some paper => Returned (Paper.name paper)
      | None => Returned empty
      end
  else Returned empty.

Definition lookupCategoryFromName (db : Db) (name : QString)
  : outcome (option Category.t) :=
  if isNull name || isEmpty name
  then category <- first (mCategories db) ;; Returned (Some category)
  else Returned (find_first (fun category => qeqb (Category.name category) name)
                   (mCategories db)).

Definition lookupCategoryFromId (db : Db) (id : QString)
  : outcome (option Category.t) :=
  if isNull id || isEmpty id
  then category <- first (mCategories db) ;; Returned (Some category)
  else Returned (find_first (fun category => qeqb (Category.id category) id)
                   (mCategories db)).

Definition lookupCategoryIdFromName (db : Db) (name : QString) : outcome QString :=
  if negb (isNull name) && negb (isEmpty name)
  then
    category <- lookupCategoryFromName db name ;;
    match category with
    | Some category => Returned (Category.id category)
    | None => Returned empty
    end
  else Returned empty.

Definition lookupCategoryNameFromId (db : Db) (id : QString) : outcome QString :=
  if negb (isNull id) && negb (isEmpty id)
  then
    category <- lookupCategoryFromId db id ;;
    match category with
    | Some category => Returned (Category.name category)
    | None => Returned empty
    end
  else Returned empty.

Definition lookupVendorFromName (db : Db) (name : QString)
  : outcome (option Vendor.t) :=
  if isNull name || isEmpty name
  then vendor <- first (mVendors db) ;; Returned (Some vendor)
  else Returned (find_first (fun vendor => qeqb (Vendor.name vendor) name)
                   (mVendors db)).

Definition lookupVendorUrlFromName (db : Db) (name : QString) : outcome QString :=
  if negb (isNull name) && negb (isEmpty name)
  then
    vendor <- lookupVendorFromName db name ;;
    match vendor with
    | Some vendor => Returned (Vendor.url vendor)
    | None => Returned empty
    end
  else Returned empty.

Definition lookupTemplateFromName (db : Db) (name : QString)
  : outcome (option Template.t) :=
  if isNull name || isEmpty name
  then tmplate <- first (mTemplates db) ;; Returned (Some tmplate)
  else Returned (find_first (fun tmplate => qeqb (Template.name tmplate) name)
                   (mTemplates db)).

End Db.

(** * Further operations of the label model *)

(** The body of [deleteSelection] after [selectedList] has been obtained. *)
Definition deleteSelection_given (selectedList : list ptr) (m : LabelModel)
  : LabelModel :=
  let m := foreach selectedList (fun object m => deleteObject object m) m in
  let m := with_modified true m in
  let m := emit changed m in
  emit selectionChanged m.

Definition deleteSelection (m : LabelModel) : outcome LabelModel :=
  selectedList <- getSelection m ;;
  Returned (deleteSelection_given selectedList m).

(** [moveSelection(dx, dy)] *)
Definition moveSelection (dx dy : double) (m : LabelModel) : LabelModel :=
  let m :=
    foreach (mObjectList m)
      (fun object m =>
         if isSelected (objects m object)
         then on_object (setPositionRelative dx dy) object m
         else m) m in
  let m := with_modified true m in
  emit changed m.



(** The body of [alignSelectionTop] after [selectedList] has been obtained. *)
Definition alignSelectionTop_given (selectedList : list ptr) (m : LabelModel)
  : LabelModel :=
  let y1_min :=
    foreach selectedList
      (fun object y1_min =>
         let r := getExtent (objects m object) in
         if Qltb (y1 r) y1_min then y1 r else y1_min) 7200%Q in
  let m :=
    foreach selectedList
      (fun object m =>
         let r := getExtent (objects m object) in
         let dy := (y1_min - y1 r)%Q in
         on_object (setPositionRelative 0%Q dy) object m) m in
  let m := with_modified true m in
  emit changed m.

Definition alignSelectionTop (m : LabelModel) : outcome LabelModel :=
  if isSelectionEmpty m || isSelectionAtomic m then Returned m
  else
    selectedList <- getSelection m ;;
    Returned (alignSelectionTop_given selectedList m).

(** The body of [alignSelectionBottom] after [selectedList] has been obtained. *)
Definition alignSelectionBottom_given (selectedList : list ptr) (m : LabelModel)
  : LabelModel :=
  let y1_max :=
    foreach selectedList
      (fun object y1_max =>
         let r := getExtent (objects m object) in
         if Qltb y1_max (y1 r) then y1 r else y1_max) (-7200)%Q in
  let m :=
    foreach selectedList
      (fun object m =>
         let r := getExtent (objects m object) in
         let dy := (y1_max - y1 r)%Q in
         on_object (setPositionRelative 0%Q dy) object m) m in
  let m := with_modified true m in
  emit changed m.

Definition alignSelectionBottom (m : LabelModel) : outcome LabelModel :=
  if isSelectionEmpty m || isSelectionAtomic m then Returned m
  else
    selectedList <- getSelection m ;;
    Returned (alignSelectionBottom_given selectedList m).

(** First loop of [alignSelectionVCenter]: the pair (ysum, n). *)
Definition vcenter_sum (h : store) (selectedList : list ptr) : double * Z :=
  foreach selectedList
    (fun object '(ysum, n) =>
       let r := getExtent (h object) in
       ((ysum + vcenter r)%Q, (n + 1)%Z)) (0%Q, 0%Z).

(** Second loop of [alignSelectionVCenter]: the pair (ycenter, dymin). *)
Definition vcenter_closest (h : store) (selectedList : list ptr) (yavg : double)
  : double * double :=
  let ycenter := 7200%Q in
  let dymin := fabs (yavg - ycenter)%Q in
  foreach selectedList
    (fun object '(ycenter, dymin) =>
       let r := getExtent (h object) in
       let dy := fabs (yavg - vcenter r)%Q in
       if Qltb dy dymin then (vcenter r, dy) else (ycenter, dymin))
    (ycenter, dymin).

(** The body of [alignSelectionVCenter] after [selectedList] has been obtained. *)
Definition alignSelectionVCenter_given (selectedList : list ptr) (m : LabelModel)
  : LabelModel :=
  let '(ysum, n) := vcenter_sum (objects m) selectedList in
  let yavg := (ysum / inject_Z n)%Q in
  let '(ycenter, _) := vcenter_closest (objects m) selectedList yavg in
  let m :=
    foreach selectedList
      (fun object m =>
         let r := getExtent (objects m object) in
         let dy := (ycenter - vcenter r)%Q in
         on_object (setPositionRelative 0%Q dy) object m) m in
  let m := with_modified true m in
  emit changed m.

Definition alignSelectionVCenter (m : LabelModel) : outcome LabelModel :=
  if isSelectionEmpty m || isSelectionAtomic m then Returned m
  else
    selectedList <- getSelection m ;;
    Returned (alignSelectionVCenter_given selectedList m).

(** The capability queries.  [canText], [canFill], [canLineColor] and
    [canLineWidth] are methods of [LabelModelObject] whose answer depends on
    the class of the object; the answers are taken as parameters, by address. *)
Section Capabilities.

Variables canText canFill canLineColor canLineWidth : ptr -> bool.

Fixpoint canSelectionText_loop (h : store) (l : list ptr) : bool :=
  match l with
  | [] => false
  | object :: t =>
      if isSelected (h object) && canText object then true
      else canSelectionText_loop h t
  end.

Definition canSelectionText (m : LabelModel) : bool :=
  canSelectionText_loop (objects m) (mObjectList m).

Fixpoint canSelectionFill_loop (h : store) (l : list ptr) : bool :=
  match l with
  | [] => false
  | object :: t =>
      if isSelected (h object) && canFill object then true
      else canSelectionFill_loop h t
  end.

Definition canSelectionFill (m : LabelModel) : bool :=
  canSelectionFill_loop (objects m) (mObjectList m).

Fixpoint canSelectionLineColor_loop (h : store) (l : list ptr) : bool :=
  match l with
  | [] => false
  | object :: t =>
      if isSelected (h object) && canLineColor object then true
      else canSelectionLineColor_loop h t
  end.

Definition canSelectionLineColor (m : LabelModel) : bool :=
  canSelectionLineColor_loop (objects m) (mObjectList m).

Fixpoint canSelectionLineWidth_loop (h : store) (l : list ptr) : bool :=
  match l with
  | [] => false
  | object :: t =>
      if isSelected (h object) && canLineWidth object then true
      else canSelectionLineWidth_loop h t
  end.

Definition canSelectionLineWidth (m : LabelModel) : bool :=
  canSelectionLineWidth_loop (objects m) (mObjectList m).

End Capabilities.

(** * Registration in the registry *)

(** The lists of ids and names that [Db] keeps beside the lists of entries. *)
Record DbNames : Type := mkDbNames {
  mPaperIds : list Db.QString;
  mPaperNames : list Db.QString;
  mCategoryIds : list Db.QString;
  mCategoryNames : list Db.QString;
  mVendorNames : list Db.QString
}.

(** The whole static data of [Db]. *)
Definition DbState : Type := (Db.Db * DbNames)%type.

(** [foreach (e, l) { if (test e) return true; } return false;] *)
Fixpoint known {E : Type} (test : E -> bool) (l : list E) : bool :=
  match l with
  | [] => false
  | e :: t => if test e then true else known test t
  end.

Definition isPaperIdKnown (db : Db.Db) (id : Db.QString) : bool :=
  known (fun paper => Db.qeqb (Db.Paper.id paper) id) (Db.mPapers db).

Definition isCategoryIdKnown (db : Db.Db) (id : Db.QString) : bool :=
  known (fun category => Db.qeqb (Db.Category.id category) id) (Db.mCategories db).

Definition isVendorNameKnown (db : Db.Db) (name : Db.QString) : bool :=
  known (fun vendor => Db.qeqb (Db.Vendor.name vendor) name) (Db.mVendors db).

Definition isTemplateKnown (db : Db.Db) (brand part : Db.QString) : bool :=
  known (fun tmplate => Db.qeqb (Db.Template.brand tmplate) brand &&
                        Db.qeqb (Db.Template.part tmplate) part)
    (Db.mTemplates db).

Definition registerPaper (paper : Db.Paper.t) (s : DbState) : DbState :=
  let '(db, names) := s in
  if negb (isPaperIdKnown db (Db.Paper.id paper))
  then
    (Db.mkDb (Db.mPapers db ++ [paper]) (Db.mCategories db) (Db.mVendors db)
       (Db.mTemplates db) (Db.mPaperNameOther db),
     mkDbNames (mPaperIds names ++ [Db.Paper.id paper])
       (mPaperNames names ++ [Db.Paper.name paper])
       (mCategoryIds names) (mCategoryNames names) (mVendorNames names))
  else s.

Definition registerCategory (category : Db.Category.t) (s : DbState) : DbState :=
  let '(db, names) := s in
  if negb (isCategoryIdKnown db (Db.Category.id category))
  then
    (Db.mkDb (Db.mPapers db) (Db.mCategories db ++ [category]) (Db.mVendors db)
       (Db.mTemplates db) (Db.mPaperNameOther db),
     mkDbNames (mPaperIds names) (mPaperNames names)
       (mCategoryIds names ++ [Db.Category.id category])
       (mCategoryNames names ++ [Db.Category.name category])
       (mVendorNames names))
  else s.

Definition registerVendor (vendor : Db.Vendor.t) (s : DbState) : DbState :=
  let '(db, names) := s in
  if negb (isVendorNameKnown db (Db.Vendor.name vendor))
  then
    (Db.mkDb (Db.mPapers db) (Db.mCategories db) (Db.mVendors db ++ [vendor])
       (Db.mTemplates db) (Db.mPaperNameOther db),
     mkDbNames (mPaperIds names) (mPaperNames names)
       (mCategoryIds names) (mCategoryNames names)
       (mVendorNames names ++ [Db.Vendor.name vendor]))
  else s.

(** [initPreview] prepares the preview of the template, which is not part of
    the entry as modelled. *)
Definition registerTemplate (tmplate : Db.Template.t) (s : DbState) : DbState :=
  let '(db, names) := s in
  if negb (isTemplateKnown db (Db.Template.brand tmplate) (Db.Template.part tmplate))
  then
    (Db.mkDb (Db.mPapers db) (Db.mCategories db) (Db.mVendors db)
       (Db.mTemplates db ++ [tmplate]) (Db.mPaperNameOther db),
     names)
  else s.

Definition lookupTemplateFromBrandPart (db : Db.Db) (brand part : Db.QString)
  : outcome (option Db.Template.t) :=
  if Db.isNull brand || Db.isEmpty brand || Db.isNull part || Db.isEmpty part
  then tmplate <- Db.first (Db.mTemplates db) ;; Returned (Some tmplate)
  else Returned (Db.find_first
                   (fun tmplate => Db.qeqb (Db.Template.brand tmplate) brand &&
                                   Db.qeqb (Db.Template.part tmplate) part)
                   (Db.mTemplates db)).

(** [getNameListOfSimilarTemplates].  [Template::isSimilarTo] is defined
    outside [Db.cpp] and taken as a parameter. *)
Definition getNameListOfSimilarTemplates
  (isSimilarTo : Db.Template.t -> Db.Template.t -> bool)
  (db : Db.Db) (name : Db.QString) : outcome (list Db.QString) :=
  tmplate1 <- Db.lookupTemplateFromName db name ;;
  match tmplate1 with
  | None => Returned []
  | Some tmplate1 =>
      Returned
        (foreach (Db.mTemplates db)
           (fun tmplate2 list =>
              if negb (Db.qeqb (Db.Template.name tmplate1) (Db.Template.name tmplate2))
              then
                if isSimilarTo tmplate1 tmplate2
                then list ++ [Db.Template.name tmplate2]
                else list
              else list) [])
  end.

(** The registry before anything is registered. *)
Definition empty_registry (other : Db.QString) : DbState :=
  (Db.mkDb [] [] [] [] other, mkDbNames [] [] [] [] []).

(** * Vocabulary of the specification *)

(** The selection as a predicate on addresses. *)
Definition selected (m : LabelModel) (p : ptr) : bool := isSelected (objects m p).

(** Two states that differ at most in selected flags: the same object list,
    the same modified flag, and every object at the same position with the
    same extent. *)
Definition same_but_flags (m m' : LabelModel) : Prop :=
  mObjectList m' = mObjectList m /\
  mModified m' = mModified m /\
  forall p : ptr,
    mX0 (objects m' p) = mX0 (objects m p) /\
    mY0 (objects m' p) = mY0 (objects m p) /\
    getExtent (objects m' p) = getExtent (objects m p).

(** A selection-only step: flags apart nothing changes, and the one signal
    emitted is [selectionChanged]. *)
Definition selection_only (m m' : LabelModel) : Prop :=
  same_but_flags m m' /\ emitted m' = emitted m ++ [selectionChanged].

(** Flags apart nothing changes, and nothing is emitted. *)
Definition flags_apart (m m' : LabelModel) : Prop :=
  same_but_flags m m' /\ emitted m' = emitted m.

(** The region with its corners reordered so that x1 <= x2 and y1 <= y2. *)
Definition normalized (region : LabelRegion) : LabelRegion :=
  {| x1 := Qmin (x1 region) (x2 region);
     y1 := Qmin (y1 region) (y2 region);
     x2 := Qmax (x1 region) (x2 region);
     y2 := Qmax (y1 region) (y2 region) |}.

(** An extent lies within a region on all four edges. *)
Definition fully_contained (extent region : LabelRegion) : Prop :=
  (x1 region <= x1 extent)%Q /\ (x2 extent <= x2 region)%Q /\
  (y1 region <= y1 extent)%Q /\ (y2 extent <= y2 region)%Q.

(** Two regions share a point. *)
Definition intersects (a b : LabelRegion) : Prop :=
  (x1 a <= x2 b)%Q /\ (x1 b <= x2 a)%Q /\ (y1 a <= y2 b)%Q /\ (y1 b <= y2 a)%Q.

(** [a] is above [b] in a stacking order: [b] occurs in the list, and [a]
    occurs later (the end of the list is the top). *)
Definition above (l : list ptr) (a b : ptr) : Prop :=
  exists l1 l2 l3 : list ptr, l = l1 ++ b :: l2 ++ a :: l3.

Fixpoint aboveb (l : list ptr) (a b : ptr) : bool :=
  match l with
  | [] => false
  | x :: t => (Nat.eqb x b && existsb (Nat.eqb a) t) || aboveb t a b
  end.

(** ** Concrete states *)

(** An object whose extent is the box (xa, ya)-(xb, yb), placed at its
    upper left corner. *)
Definition box (xa ya xb yb : double) (sel : bool) : LabelModelObject :=
  mkObject xa ya (mkRegion xa ya xb yb) sel.

Arguments box (xa ya xb yb)%_Q sel.

(** The model holding the given objects at the addresses 0, 1, 2, ... in this
    stacking order, with nothing emitted yet. *)
Definition model_of (l : list LabelModelObject) : LabelModel :=
  mkModel (fun p => nth p l (box 0%Q 0%Q 0%Q 0%Q false)) (seq 0 (List.length l)) false [].

(** Two selected objects whose left edges lie beyond 7200. *)
Definition far_right_pair : LabelModel :=
  model_of [box 7300 0 7310 10 true; box 7400 0 7420 10 true].

(** Two selected objects of different widths. *)
Definition narrow_and_wide : LabelModel :=
  model_of [box 0 0 10 10 true; box 20 0 50 10 true].

(** The scenario of the specification: centers (50,50), (150,50), (90,50). *)
Definition three_centers : LabelModel :=
  model_of [box 40 40 60 60 true; box 140 40 160 60 true; box 80 40 100 60 true].

(** Two selected objects with centers 7000 and 8000. *)
Definition far_centers : LabelModel :=
  model_of [box 6990 0 7010 10 true; box 7990 0 8010 10 true].

(** Three stacked objects, the bottom and the top one selected. *)
Definition three_stacked : LabelModel :=
  model_of [box 0 0 10 10 true; box 0 0 10 10 false; box 0 0 10 10 true].

(** One object, selected or not, and the empty model. *)
Definition one_object (sel : bool) : LabelModel := model_of [box 0 0 10 10 sel].

Definition empty_model : LabelModel := model_of [].

(** An object inside the region (0,0)-(10,10), one that straddles its right
    edge, and one outside that is already selected. *)
Definition region_scene : LabelModel :=
  model_of [box 2 2 8 8 false; box 5 5 15 8 false; box 20 20 30 30 true].

(** A registry with two papers. *)
Definition paper_A4 : Db.Paper.t := Db.Paper.mk (Db.QStr "A4") (Db.QStr "A4 sheet").
Definition paper_Letter : Db.Paper.t :=
  Db.Paper.mk (Db.QStr "US-Letter") (Db.QStr "US Letter").

Definition two_papers : Db.Db :=
  Db.mkDb [paper_A4; paper_Letter] [] [] [] (Db.QStr "Other").

(** A horizontal move: the object list, the modified flag and the log are
    as before, and every object keeps its flag, its vertical extent and its
    width. *)
Definition moved_horizontally (m m' : LabelModel) : Prop :=
  mObjectList m' = mObjectList m /\
  mModified m' = mModified m /\
  emitted m' = emitted m /\
  forall p : ptr,
    selected m' p = selected m p /\
    (y1 (getExtent (objects m' p)) == y1 (getExtent (objects m p)))%Q /\
    (y2 (getExtent (objects m' p)) == y2 (getExtent (objects m p)))%Q /\
    (x2 (getExtent (objects m' p)) - x1 (getExtent (objects m' p)) ==
     x2 (getExtent (objects m p)) - x1 (getExtent (objects m p)))%Q.

(** The third loop of the horizontal alignments: every object of the list is
    moved so that its edge (or center) [e] comes to lie on [c]. *)
Definition shift_to (e : LabelRegion -> double) (c : double)
  (selectedList : list ptr) (m : LabelModel) : LabelModel :=
  foreach selectedList
    (fun object m =>
       let r := getExtent (objects m object) in
       let dx := (c - e r)%Q in
       on_object (setPositionRelative dx 0%Q) object m) m.

(** The mean of the horizontal centers, as [alignSelectionHCenter] computes
    it from the first loop. *)
Definition hcenter_mean (h : store) (selectedList : list ptr) : double :=
  let '(xsum, n) := hcenter_sum h selectedList in (xsum / inject_Z n)%Q.

(** ** Contracts of the registry lookups *)

(** A lookup [L] over the registry list [l] answers a null or empty
    identifier with the first entry of the list (seen through [proj]). *)
Definition default_is_first {E R : Type}
  (l : list E) (proj : E -> R) (L : Db.QString -> outcome R) : Prop :=
  forall (k : Db.QString) (e : E) (t : list E),
    Db.isEmpty k = true -> l = e :: t -> L k = Returned (proj e).

(** [L] answers a null or empty identifier with the empty string. *)
Definition empty_is_empty (L : Db.QString -> outcome Db.QString) : Prop :=
  forall k : Db.QString, Db.isEmpty k = true -> L k = Returned Db.empty.

(** [L] answers a non-empty identifier of [dom] that matches no entry of [l]
    on [key] with [absent]. *)
Definition unknown_is_absent {E R : Type}
  (dom : Db.QString -> bool) (l : list E) (key : E -> Db.QString) (absent : R)
  (L : Db.QString -> outcome R) : Prop :=
  forall k : Db.QString,
    Db.isEmpty k = false -> dom k = true ->
    (forall e, In e l -> Db.qeqb (key e) k = false) ->
    L k = Returned absent.

(** [L] answers a non-empty identifier of [dom] with the first entry of [l]
    that matches it on [key] (seen through [proj]). *)
Definition known_is_first_match {E R : Type}
  (dom : Db.QString -> bool) (l : list E) (key : E -> Db.QString) (proj : E -> R)
  (L : Db.QString -> outcome R) : Prop :=
  forall (k : Db.QString) (pre : list E) (e : E) (post : list E),
    Db.isEmpty k = false -> dom k = true ->
    l = pre ++ e :: post ->
    (forall e', In e' pre -> Db.qeqb (key e') k = false) ->
    Db.qeqb (key e) k = true ->
    L k = Returned (proj e).

Definition any_identifier (k : Db.QString) : bool := true.

Definition not_Other (k : Db.QString) : bool := negb (Db.isPaperIdOther k).

(** The contract of a lookup that returns an entry. *)
Definition entry_lookup {E : Type}
  (l : list E) (key : E -> Db.QString) (L : Db.QString -> outcome (option E))
  : Prop :=
  default_is_first l Some L /\
  unknown_is_absent any_identifier l key None L /\
  known_is_first_match any_identifier l key Some L.

(** The contract of a lookup that returns a string of the matching entry. *)
Definition string_lookup {E : Type}
  (dom : Db.QString -> bool) (l : list E) (key : E -> Db.QString)
  (proj : E -> Db.QString) (L : Db.QString -> outcome Db.QString) : Prop :=
  empty_is_empty L /\
  unknown_is_absent dom l key Db.empty L /\
  known_is_first_match dom l key proj L.

(** ** Vocabulary for the further operations *)

(** The loop shared by the operations that call one method on every selected
    object of the list. *)
Definition selection_loop (method : LabelModelObject -> LabelModelObject)
  (l : list ptr) (m : LabelModel) : LabelModel :=
  foreach l
    (fun object m =>
       if isSelected (objects m object) then on_object method object m else m) m.





(** Two selected objects at different heights: top edges at 5 and 30,
    heights 10 and 40. *)
Definition two_rows : LabelModel :=
  model_of [box 0 5 10 15 true; box 20 30 50 70 true].

(** A loop that calls one method on every object of a list. *)
Definition each_once (method : LabelModelObject -> LabelModelObject)
  (l : list ptr) (m : LabelModel) : LabelModel :=
  foreach l (fun object m => on_object method object m) m.

(** No two entries of a registry list are the same under [same]. *)
Definition distinct_keys {E : Type} (same : E -> E -> bool) (l : list E) : Prop :=
  ForallOrdPairs (fun a b => same a b = false) l.

Definition same_paper_id (a b : Db.Paper.t) : bool :=
  Db.qeqb (Db.Paper.id a) (Db.Paper.id b).

Definition same_category_id (a b : Db.Category.t) : bool :=
  Db.qeqb (Db.Category.id a) (Db.Category.id b).

Definition same_vendor_name (a b : Db.Vendor.t) : bool :=
  Db.qeqb (Db.Vendor.name a) (Db.Vendor.name b).

Definition same_brand_part (a b : Db.Template.t) : bool :=
  Db.qeqb (Db.Template.brand a) (Db.Template.brand b) &&
  Db.qeqb (Db.Template.part a) (Db.Template.part b).

(** The registry as registration builds it: no id (vendor name, brand and
    part) occurs twice, and the lists of ids and names run parallel to the
    lists of entries. *)
Definition registry_wf (s : DbState) : Prop :=
  let '(db, names) := s in
  distinct_keys same_paper_id (Db.mPapers db) /\
  mPaperIds names = map Db.Paper.id (Db.mPapers db) /\
  mPaperNames names = map Db.Paper.name (Db.mPapers db) /\
  distinct_keys same_category_id (Db.mCategories db) /\
  mCategoryIds names = map Db.Category.id (Db.mCategories db) /\
  mCategoryNames names = map Db.Category.name (Db.mCategories db) /\
  distinct_keys same_vendor_name (Db.mVendors db) /\
  mVendorNames names = map Db.Vendor.name (Db.mVendors db) /\
  distinct_keys same_brand_part (Db.mTemplates db).

(** The registry of [two_papers] with its lists of ids and names. *)
Definition two_papers_state : DbState :=
  (two_papers,
   mkDbNames [Db.QStr "A4"; Db.QStr "US-Letter"]
     [Db.QStr "A4 sheet"; Db.QStr "US Letter"] [] [] []).

Definition paper_B5 : Db.Paper.t := Db.Paper.mk (Db.QStr "B5") (Db.QStr "B5 sheet").

Definition template_one : Db.Template.t :=
  Db.Template.mk (Db.QStr "Avery") (Db.QStr "5160") (Db.QStr "Avery 5160").

Definition template_two : Db.Template.t :=
  Db.Template.mk (Db.QStr "Avery") (Db.QStr "5161") (Db.QStr "Avery 5161").

Definition two_templates : Db.Db :=
  Db.mkDb [] [] [] [template_one; template_two] (Db.QStr "Other").

(** * Properties *)

(** ** Loops and stores *)

Lemma foreach_cons (A S : Type) (a : A) (l : list A) (body : A -> S -> S) (s : S) :
  foreach (a :: l) body s = foreach l body (body a s).
Proof. reflexivity. Qed.

Lemma foreach_app (A S : Type) (l l' : list A) (body : A -> S -> S) (s : S) :
  foreach (l ++ l') body s = foreach l' body (foreach l body s).
Proof. unfold foreach. apply fold_left_app. Qed.

(** A relation that every step of a loop respects holds across the loop. *)
Lemma foreach_preserves (A S : Type) (R : S -> S -> Prop) (body : A -> S -> S) :
  (forall s, R s s) ->
  (forall s1 s2 s3, R s1 s2 -> R s2 s3 -> R s1 s3) ->
  (forall a s, R s (body a s)) ->
  forall l s, R s (foreach l body s).
Proof.
  intros Hrefl Htrans Hstep l.
  induction l as [|a l IH]; intros s.
  - apply Hrefl.
  - rewrite foreach_cons. eapply Htrans; [apply Hstep | apply IH].
Qed.

Lemma upd_same (h : store) (p : ptr) (o : LabelModelObject) : upd h p o p = o.
Proof. unfold upd. now rewrite Nat.eqb_refl. Qed.

Lemma upd_other (h : store) (p q : ptr) (o : LabelModelObject) :
  q <> p -> upd h p o q = h q.
Proof. intros H. unfold upd. apply Nat.eqb_neq in H. now rewrite H. Qed.

Lemma existsb_eqb_In (p : ptr) (l : list ptr) :
  existsb (Nat.eqb p) l = true <-> In p l.
Proof.
  rewrite existsb_exists. split.
  - intros [x [Hin Heq]]. apply Nat.eqb_eq in Heq. now subst.
  - intros Hin. exists p. split; [assumption | apply Nat.eqb_refl].
Qed.

(** ** Selection-only operations *)

Lemma flags_apart_refl (m : LabelModel) : flags_apart m m.
Proof. repeat split. Qed.

Lemma flags_apart_trans (m1 m2 m3 : LabelModel) :
  flags_apart m1 m2 -> flags_apart m2 m3 -> flags_apart m1 m3.
Proof.
  intros [[Hl [Hm Ho]] He] [[Hl' [Hm' Ho']] He'].
  repeat split; try congruence;
    destruct (Ho p) as [? [? ?]]; destruct (Ho' p) as [? [? ?]]; congruence.
Qed.

Lemma flags_apart_select (p : ptr) (m : LabelModel) :
  flags_apart m (on_object select p m).
Proof.
  split; [split; [reflexivity | split; [reflexivity |]] | reflexivity].
  intros q. simpl. unfold call, upd.
  destruct (Nat.eqb q p) eqn:E; [apply Nat.eqb_eq in E; subst |]; now repeat split.
Qed.

Lemma flags_apart_unselect (p : ptr) (m : LabelModel) :
  flags_apart m (on_object unselect p m).
Proof.
  split; [split; [reflexivity | split; [reflexivity |]] | reflexivity].
  intros q. simpl. unfold call, upd.
  destruct (Nat.eqb q p) eqn:E; [apply Nat.eqb_eq in E; subst |]; now repeat split.
Qed.

Lemma flags_apart_emit (m m' : LabelModel) :
  flags_apart m m' -> selection_only m (emit selectionChanged m').
Proof.
  intros [[Hl [Hm Ho]] He]. repeat split; simpl; try assumption; try apply Ho.
  now rewrite He.
Qed.

(** C7. [selectObject], [unselectObject], [selectAll] and [unselectAll] leave
    the object list, the position and extent of every object and the modified
    flag as they were, and emit [selectionChanged] and nothing else (in
    particular not [changed]). *)
Theorem selection_operations_change_flags_only (m : LabelModel) (object : ptr) :
  selection_only m (selectObject object m) /\
  selection_only m (unselectObject object m) /\
  selection_only m (selectAll m) /\
  selection_only m (unselectAll m).
Proof.
  split; [|split; [|split]]; apply flags_apart_emit.
  - apply flags_apart_select.
  - apply flags_apart_unselect.
  - apply foreach_preserves.
    + apply flags_apart_refl.
    + apply flags_apart_trans.
    + intros a s. apply flags_apart_select.
  - apply foreach_preserves.
    + apply flags_apart_refl.
    + apply flags_apart_trans.
    + intros a s. apply flags_apart_unselect.
Qed.

(** ** The flags after the selection-only operations *)

Lemma selected_on_object_select (a p : ptr) (m : LabelModel) :
  selected (on_object select a m) p = selected m p || Nat.eqb p a.
Proof.
  unfold selected. simpl. unfold call, upd.
  destruct (Nat.eqb p a) eqn:E.
  - simpl. now rewrite orb_true_r.
  - now rewrite orb_false_r.
Qed.

Lemma selected_on_object_unselect (a p : ptr) (m : LabelModel) :
  selected (on_object unselect a m) p = selected m p && negb (Nat.eqb p a).
Proof.
  unfold selected. simpl. unfold call, upd.
  destruct (Nat.eqb p a) eqn:E.
  - simpl. now rewrite andb_false_r.
  - now rewrite andb_true_r.
Qed.

(** [selectObject] and [unselectObject] set the flag of their object. *)
Lemma selectObject_selected (object p : ptr) (m : LabelModel) :
  selected (selectObject object m) p = selected m p || Nat.eqb p object.
Proof. apply selected_on_object_select. Qed.

Lemma unselectObject_selected (object p : ptr) (m : LabelModel) :
  selected (unselectObject object m) p = selected m p && negb (Nat.eqb p object).
Proof. apply selected_on_object_unselect. Qed.

Lemma select_all_loop (p : ptr) (l : list ptr) :
  forall m : LabelModel,
    selected (foreach l (fun object m => on_object select object m) m) p =
    selected m p || existsb (Nat.eqb p) l.
Proof.
  induction l as [|a l IH]; intros m.
  - simpl. now rewrite orb_false_r.
  - rewrite foreach_cons, IH, selected_on_object_select. simpl.
    now rewrite orb_assoc.
Qed.

Lemma unselect_all_loop (p : ptr) (l : list ptr) :
  forall m : LabelModel,
    selected (foreach l (fun object m => on_object unselect object m) m) p =
    selected m p && negb (existsb (Nat.eqb p) l).
Proof.
  induction l as [|a l IH]; intros m.
  - simpl. now rewrite andb_true_r.
  - rewrite foreach_cons, IH, selected_on_object_unselect. simpl.
    rewrite negb_orb. now rewrite andb_assoc.
Qed.

(** [selectAll] sets the flag of every object of the list, [unselectAll]
    clears it; objects outside the list keep theirs. *)
Lemma selectAll_selected (m : LabelModel) (p : ptr) :
  selected (selectAll m) p = selected m p || existsb (Nat.eqb p) (mObjectList m).
Proof. apply (select_all_loop p (mObjectList m) m). Qed.

Lemma unselectAll_selected (m : LabelModel) (p : ptr) :
  selected (unselectAll m) p =
  selected m p && negb (existsb (Nat.eqb p) (mObjectList m)).
Proof. apply (unselect_all_loop p (mObjectList m) m). Qed.

(** ** selectRegion *)

(** The loop of [selectRegion], for any test on extents: flags apart nothing
    changes, and an object is selected afterwards exactly when it was before
    or it is visited and passes the test. *)
Lemma select_if_loop (P : LabelRegion -> bool) (l : list ptr) :
  forall m : LabelModel,
    let m' :=
      foreach l
        (fun object m =>
           if P (getExtent (objects m object)) then on_object select object m else m)
        m in
    flags_apart m m' /\
    forall p : ptr,
      selected m' p =
      selected m p || (existsb (Nat.eqb p) l && P (getExtent (objects m p))).
Proof.
  induction l as [|a l IH]; intros m; simpl.
  - split; [apply flags_apart_refl |].
    intros p. now rewrite orb_false_r.
  - set (m1 := if P (getExtent (objects m a)) then on_object select a m else m).
    assert (Hfa : flags_apart m m1).
    { unfold m1. destruct (P (getExtent (objects m a)));
        [apply flags_apart_select | apply flags_apart_refl]. }
    assert (Hsel : forall p, selected m1 p =
                             selected m p || (Nat.eqb p a && P (getExtent (objects m p)))).
    { intros p. unfold m1, selected.
      destruct (Nat.eqb p a) eqn:E.
      - apply Nat.eqb_eq in E. subst p.
        destruct (P (getExtent (objects m a))); simpl.
        + unfold call. rewrite upd_same. simpl. now rewrite orb_true_r.
        + now rewrite orb_false_r.
      - apply Nat.eqb_neq in E. rewrite orb_false_r.
        destruct (P (getExtent (objects m a))); simpl; [|reflexivity].
        unfold call. now rewrite upd_other. }
    destruct (IH m1) as [Hfa' Hsel'].
    split; [eapply flags_apart_trans; eassumption |].
    intros p. change (fold_left _ l m1) with
      (foreach l (fun object m =>
         if P (getExtent (objects m object)) then on_object select object m else m) m1).
    rewrite Hsel', Hsel.
    destruct Hfa as [[_ [_ Ho]] _]. destruct (Ho p) as [_ [_ Hext]]. rewrite Hext.
    destruct (selected m p), (Nat.eqb p a), (existsb (Nat.eqb p) l),
      (P (getExtent (objects m p))); reflexivity.
Qed.

(** [std::min] and [std::max] reorder a pair of bounds as [Qmin] and [Qmax] do. *)
Lemma std_min_Qmin (a b : double) : std_min a b = Qmin a b.
Proof.
  unfold std_min, Qltb, Qmin, GenericMinMax.gmin.
  destruct (Qle_bool a b) eqn:E; simpl.
  - apply Qle_bool_iff in E. destruct (Qcompare_spec a b) as [H|H|H];
      try reflexivity. exfalso. apply (Qlt_not_le _ _ H E).
  - destruct (Qcompare_spec a b) as [H|H|H]; try reflexivity.
    + assert (Hle : (a <= b)%Q) by (rewrite H; apply Qle_refl).
      apply Qle_bool_iff in Hle. congruence.
    + assert (Hle : (a <= b)%Q) by (apply Qlt_le_weak; assumption).
      apply Qle_bool_iff in Hle. congruence.
Qed.

Lemma std_max_Qmax (a b : double) : std_max a b = Qmax a b.
Proof.
  unfold std_max, Qltb, Qmax, GenericMinMax.gmax.
  destruct (Qle_bool b a) eqn:E; simpl.
  - apply Qle_bool_iff in E. destruct (Qcompare_spec a b) as [H|H|H];
      try reflexivity. exfalso. apply (Qlt_not_le _ _ H E).
  - destruct (Qcompare_spec a b) as [H|H|H]; try reflexivity.
    + assert (Hle : (b <= a)%Q) by (rewrite H; apply Qle_refl).
      apply Qle_bool_iff in Hle. congruence.
    + assert (Hle : (b <= a)%Q) by (apply Qlt_le_weak; assumption).
      apply Qle_bool_iff in Hle. congruence.
Qed.

Lemma inside_fully_contained (region extent : LabelRegion) :
  inside (x1 region) (y1 region) (x2 region) (y2 region) extent = true <->
  fully_contained extent region.
Proof.
  unfold inside, fully_contained.
  rewrite !andb_true_iff, !Qle_bool_iff. tauto.
Qed.

(** [selectRegion] as a whole, in the vocabulary of the specification. *)
Lemma selectRegion_selected (region : LabelRegion) (m : LabelModel) (p : ptr) :
  selected (selectRegion region m) p = true <->
  selected m p = true \/
  (In p (mObjectList m) /\
   fully_contained (getExtent (objects m p)) (normalized region)).
Proof.
  unfold selectRegion.
  destruct (select_if_loop
              (inside (std_min (x1 region) (x2 region))
                      (std_min (y1 region) (y2 region))
                      (std_max (x1 region) (x2 region))
                      (std_max (y1 region) (y2 region)))
              (mObjectList m) m) as [_ Hsel].
  cbv zeta in Hsel.
  unfold selected at 1. simpl objects.
  change (isSelected (objects ?x p)) with (selected x p).
  rewrite Hsel, orb_true_iff, andb_true_iff, existsb_eqb_In.
  rewrite !std_min_Qmin, !std_max_Qmax.
  rewrite (inside_fully_contained (normalized region)). reflexivity.
Qed.

(** C3. Whatever the order of the corners of [region], an object of the model
    whose extent lies within the normalized region on all four edges is
    selected by [selectRegion]; an object whose extent does not (it may well
    intersect the region) keeps its flag, so the call never selects it. *)
Theorem selectRegion_selects_exactly_contained
  (region : LabelRegion) (m : LabelModel) (object : ptr) :
  In object (mObjectList m) ->
  (fully_contained (getExtent (objects m object)) (normalized region) ->
   selected (selectRegion region m) object = true) /\
  (~ fully_contained (getExtent (objects m object)) (normalized region) ->
   selected (selectRegion region m) object = selected m object).
Proof.
  intros Hin. split.
  - intros Hc. apply selectRegion_selected. right. now split.
  - intros Hn.
    destruct (selected (selectRegion region m) object) eqn:E.
    + apply selectRegion_selected in E. destruct E as [E|[_ E]];
        [now rewrite E | contradiction].
    + destruct (selected m object) eqn:E'; [|reflexivity].
      assert (H : selected (selectRegion region m) object = true)
        by (apply selectRegion_selected; now left).
      congruence.
Qed.

(** The region is given by its lower right and upper left corners; the box
    inside it is selected, the box across its right edge is not. *)
Lemma selectRegion_selects_exactly_contained_witness :
  let region := mkRegion 10 10 0 0 in
  intersects (getExtent (objects region_scene 1%nat)) (normalized region) /\
  selected (selectRegion region region_scene) 0%nat = true /\
  selected (selectRegion region region_scene) 1%nat = false.
Proof.
  intros region. split; [|split].
  - unfold intersects, Qle; simpl; lia.
  - apply (selectRegion_selects_exactly_contained region region_scene 0%nat).
    + simpl; auto.
    + unfold fully_contained, Qle; simpl; lia.
  - transitivity (selected region_scene 1%nat); [|reflexivity].
    apply (selectRegion_selects_exactly_contained region region_scene 1%nat).
    + simpl; auto.
    + unfold fully_contained, Qle; simpl; lia.
Defined.

(** The comparisons are [>=] and [<=]: an extent that touches the border of
    the region from inside, or fills the region, is selected. *)
Lemma selectRegion_includes_border (region : LabelRegion) (m : LabelModel)
  (object : ptr) :
  In object (mObjectList m) ->
  getExtent (objects m object) = normalized region ->
  selected (selectRegion region m) object = true.
Proof.
  intros Hin Hext. apply selectRegion_selected. right. split; [assumption |].
  rewrite Hext. repeat split; apply Qle_refl.
Qed.

(** C10. [selectRegion] only adds to the selection: an object selected before
    the call, in the object list or not, is selected after it. *)
Theorem selectRegion_keeps_selection
  (region : LabelRegion) (m : LabelModel) (p : ptr) :
  selected m p = true -> selected (selectRegion region m) p = true.
Proof.
  intros H. apply selectRegion_selected. now left.
Qed.

Lemma selectRegion_keeps_selection_witness :
  selected region_scene 2%nat = true /\
  selected (selectRegion (mkRegion 0 0 10 10) region_scene) 2%nat = true.
Proof.
  split; [reflexivity |].
  apply (selectRegion_keeps_selection (mkRegion 0 0 10 10) region_scene 2%nat).
  reflexivity.
Defined.

(** ** The selection accessors *)

Lemma selectedList_loop (sel : ptr -> bool) (l acc : list ptr) :
  foreach l (fun object acc => if sel object then acc ++ [object] else acc) acc =
  acc ++ filter sel l.
Proof.
  revert acc. induction l as [|a l IH]; intros acc.
  - simpl. now rewrite app_nil_r.
  - rewrite foreach_cons, IH. simpl. destruct (sel a); simpl; [|reflexivity].
    now rewrite <- app_assoc.
Qed.

(** The list that [getSelection] builds is the subsequence of the selected
    objects, in stacking order. *)
Lemma selectedList_filter (m : LabelModel) :
  selectedList m = filter (selected m) (mObjectList m).
Proof.
  unfold selectedList. apply (selectedList_loop (selected m)).
Qed.

Lemma getFirstSelectedObject_loop_Returned (h : store) (l : list ptr) (p : ptr) :
  getFirstSelectedObject_loop h l = Returned p ->
  In p l /\ isSelected (h p) = true.
Proof.
  induction l as [|a l IH]; simpl; [discriminate |].
  destruct (isSelected (h a)) eqn:E.
  - intros H. injection H as <-. auto.
  - intros H. destruct (IH H). auto.
Qed.

(** When some object is selected, [getFirstSelectedObject] returns the first
    such object of the stacking order. *)
Lemma getFirstSelectedObject_first (m : LabelModel) (p : ptr) (rest : list ptr) :
  selectedList m = p :: rest -> getFirstSelectedObject m = Returned p.
Proof.
  rewrite selectedList_filter. unfold getFirstSelectedObject, selected.
  induction (mObjectList m) as [|a l IH]; simpl; [discriminate |].
  destruct (isSelected (objects m a)); [|exact IH].
  intros H. now injection H as -> _.
Qed.

(** When no object is selected, the loop of [getFirstSelectedObject] ends and
    the function has nothing to return. *)
Lemma getFirstSelectedObject_none (m : LabelModel) :
  selectedList m = [] -> getFirstSelectedObject m = Undefined.
Proof.
  rewrite selectedList_filter. unfold getFirstSelectedObject, selected.
  induction (mObjectList m) as [|a l IH]; simpl; [reflexivity |].
  destruct (isSelected (objects m a)); [discriminate | exact IH].
Qed.

Lemma isSelectionEmpty_selectedList (m : LabelModel) :
  isSelectionEmpty m = true <-> selectedList m = [].
Proof.
  rewrite selectedList_filter. unfold isSelectionEmpty, selected.
  induction (mObjectList m) as [|a l IH]; simpl; [tauto |].
  destruct (isSelected (objects m a)); [split; discriminate | exact IH].
Qed.

(** C4. What the code does where the claim wants a list or an absent value:
    with one object, selected, [getSelection] builds the list of that object
    and then returns nothing; with no object at all it builds the empty list
    and returns nothing, and [getFirstSelectedObject] finds no selected object
    and returns nothing either, not a null object. *)
Theorem accessors_fall_off_the_end :
  selectedList (one_object true) = [0%nat] /\
  getSelection (one_object true) = Undefined /\
  getFirstSelectedObject (one_object true) = Returned 0%nat /\
  selectedList empty_model = [] /\
  getSelection empty_model = Undefined /\
  getFirstSelectedObject empty_model = Undefined /\
  getFirstSelectedObject (one_object false) = Undefined.
Proof. repeat split. Qed.

(** [getSelection] returns nothing in any state. *)
Lemma getSelection_Undefined (m : LabelModel) : getSelection m = Undefined.
Proof. reflexivity. Qed.

(** ** deleteObject *)

Lemma removeOne_incl (x y : ptr) (l : list ptr) :
  In y (removeOne x l) -> In y l.
Proof.
  induction l as [|a l IH]; simpl; [tauto |].
  destruct (Nat.eqb a x); simpl; tauto.
Qed.

Lemma removeOne_NoDup (x : ptr) (l : list ptr) :
  NoDup l -> ~ In x (removeOne x l).
Proof.
  induction 1 as [|a l Hnin Hnd IH]; simpl; [tauto |].
  destruct (Nat.eqb a x) eqn:E.
  - apply Nat.eqb_eq in E. now subst.
  - apply Nat.eqb_neq in E. simpl. tauto.
Qed.

Lemma deleteObject_unselects (object : ptr) (m : LabelModel) :
  selected (deleteObject object m) object = false.
Proof.
  unfold selected, deleteObject. simpl. unfold call. now rewrite upd_same.
Qed.





(** ** Stacking order *)

Lemma foreach_with_list (f : ptr -> list ptr -> list ptr) (sl : list ptr) :
  forall m : LabelModel,
    foreach sl (fun object m => with_list (f object (mObjectList m)) m) m =
    with_list (foreach sl f (mObjectList m)) m.
Proof.
  induction sl as [|a sl IH]; intros m.
  - destruct m; reflexivity.
  - rewrite !foreach_cons, IH. reflexivity.
Qed.

Lemma foreach_with_list_emit
  (f : ptr -> list ptr -> list ptr) (sig : ptr -> Signal) (sl : list ptr) :
  forall m : LabelModel,
    foreach sl (fun object m =>
                  let m := with_list (f object (mObjectList m)) m in
                  emit (sig object) m) m =
    {| objects := objects m;
       mObjectList := foreach sl f (mObjectList m);
       mModified := mModified m;
       emitted := emitted m ++ map sig sl |}.
Proof.
  induction sl as [|a sl IH]; intros m.
  - destruct m; simpl. now rewrite app_nil_r.
  - rewrite !foreach_cons, IH. simpl. now rewrite <- app_assoc.
Qed.

Lemma push_back_all (sl l : list ptr) :
  foreach sl (fun object l => l ++ [object]) l = l ++ sl.
Proof.
  revert l. induction sl as [|a sl IH]; intros l.
  - simpl. now rewrite app_nil_r.
  - rewrite foreach_cons, IH, <- app_assoc. reflexivity.
Qed.

Lemma push_front_all (sl l : list ptr) :
  foreach sl (fun object l => object :: l) l = rev sl ++ l.
Proof.
  revert l. induction sl as [|a sl IH]; intros l.
  - reflexivity.
  - rewrite foreach_cons, IH. simpl. now rewrite <- app_assoc.
Qed.

Lemma removeOne_skip (a : ptr) (xs l : list ptr) :
  ~ In a xs ->
  foreach xs removeOne (a :: l) = a :: foreach xs removeOne l.
Proof.
  revert l. induction xs as [|x xs IH]; intros l Hnin; [reflexivity |].
  rewrite !foreach_cons. simpl removeOne.
  destruct (Nat.eqb a x) eqn:E.
  - apply Nat.eqb_eq in E. subst. exfalso. apply Hnin. now left.
  - apply IH. intros H. apply Hnin. now right.
Qed.

(** Removing every selected object once per occurrence leaves the objects
    that are not selected, in their order. *)
Lemma remove_selected (sel : ptr -> bool) (l : list ptr) :
  foreach (filter sel l) removeOne l = filter (fun p => negb (sel p)) l.
Proof.
  induction l as [|a l IH]; [reflexivity |].
  cbn [filter]. destruct (sel a) eqn:E; cbn [negb].
  - rewrite foreach_cons. cbn [removeOne]. rewrite Nat.eqb_refl. exact IH.
  - rewrite removeOne_skip, IH; [reflexivity |].
    rewrite filter_In. intros [_ H]. congruence.
Qed.

Lemma raiseSelectionToTop_given_list (m : LabelModel) :
  mObjectList (raiseSelectionToTop_given (selectedList m) m) =
  filter (fun p => negb (selected m p)) (mObjectList m) ++
  filter (selected m) (mObjectList m).
Proof.
  unfold raiseSelectionToTop_given.
  rewrite (foreach_with_list removeOne).
  rewrite (foreach_with_list_emit (fun object l => l ++ [object]) objectToTop).
  simpl. rewrite push_back_all, selectedList_filter, remove_selected. reflexivity.
Qed.

Lemma lowerSelectionToBottom_given_list (m : LabelModel) :
  mObjectList (lowerSelectionToBottom_given (selectedList m) m) =
  rev (filter (selected m) (mObjectList m)) ++
  filter (fun p => negb (selected m p)) (mObjectList m).
Proof.
  unfold lowerSelectionToBottom_given.
  rewrite (foreach_with_list removeOne).
  rewrite (foreach_with_list_emit (fun object l => object :: l) objectToBottom).
  simpl. rewrite push_front_all, selectedList_filter, remove_selected. reflexivity.
Qed.

Lemma aboveb_above (l : list ptr) (a b : ptr) :
  aboveb l a b = true <-> above l a b.
Proof.
  unfold above. induction l as [|x l IH]; simpl.
  - split; [discriminate |]. intros [l1 [l2 [l3 H]]]. now destruct l1.
  - rewrite orb_true_iff, andb_true_iff, Nat.eqb_eq, existsb_eqb_In, IH. split.
    + intros [[-> Hin] | [l1 [l2 [l3 ->]]]].
      * apply in_split in Hin. destruct Hin as [l2 [l3 ->]]. now exists [], l2, l3.
      * now exists (x :: l1), l2, l3.
    + intros [l1 [l2 [l3 H]]]. destruct l1 as [|y l1]; simpl in H.
      * injection H as -> ->. left. split; [reflexivity |].
        apply in_or_app. right. now left.
      * injection H as -> ->. right. now exists l1, l2, l3.
Qed.

Lemma above_filter (f : ptr -> bool) (l : list ptr) (a b : ptr) :
  f a = true -> f b = true -> above l a b -> above (filter f l) a b.
Proof.
  intros Ha Hb [l1 [l2 [l3 ->]]].
  exists (filter f l1), (filter f l2), (filter f l3).
  rewrite filter_app. simpl. rewrite Hb, filter_app. simpl. now rewrite Ha.
Qed.

Lemma above_app_r (l0 l : list ptr) (a b : ptr) :
  above l a b -> above (l0 ++ l) a b.
Proof.
  intros [l1 [l2 [l3 ->]]]. exists (l0 ++ l1), l2, l3. now rewrite <- app_assoc.
Qed.

Lemma above_app_l (l l0 : list ptr) (a b : ptr) :
  above l a b -> above (l ++ l0) a b.
Proof.
  intros [l1 [l2 [l3 ->]]]. exists l1, l2, (l3 ++ l0).
  rewrite <- app_assoc. simpl. rewrite <- app_assoc. reflexivity.
Qed.

Lemma above_rev (l : list ptr) (a b : ptr) :
  above l a b -> above (rev l) b a.
Proof.
  intros [l1 [l2 [l3 ->]]]. exists (rev l3), (rev l2), (rev l1).
  rewrite rev_app_distr. simpl. rewrite rev_app_distr. simpl.
  repeat (rewrite <- app_assoc; simpl). reflexivity.
Qed.

(** The body of [raiseSelectionToTop], run on the list that [getSelection]
    builds, keeps the selected objects in their relative order, above every
    object that is not selected. *)
Lemma raiseSelectionToTop_given_keeps_order (m : LabelModel) (a b : ptr) :
  selected m a = true -> selected m b = true ->
  above (mObjectList m) a b ->
  above (mObjectList (raiseSelectionToTop_given (selectedList m) m)) a b.
Proof.
  intros Ha Hb H. rewrite raiseSelectionToTop_given_list.
  apply above_app_r, above_filter; assumption.
Qed.

(** The body of [lowerSelectionToBottom], run on the same list, turns the
    relative order of any two selected objects around. *)
Lemma lowerSelectionToBottom_given_reverses (m : LabelModel) (a b : ptr) :
  selected m a = true -> selected m b = true ->
  above (mObjectList m) a b ->
  above (mObjectList (lowerSelectionToBottom_given (selectedList m) m)) b a.
Proof.
  intros Ha Hb H. rewrite lowerSelectionToBottom_given_list.
  apply above_app_l, above_rev, above_filter; assumption.
Qed.

(** C2. What the code does on three stacked objects of which the bottom one
    (0) and the top one (2) are selected, 2 above 0.  Both operations take
    their list from [getSelection], which returns nothing.  Run on the list
    that [getSelection] builds, the body of [raiseSelectionToTop] gives the
    order 1, 0, 2 with 2 still above 0, while the body of
    [lowerSelectionToBottom] gives 2, 0, 1: object 2 is now below object 0. *)
Theorem lowerSelectionToBottom_reverses_selection :
  raiseSelectionToTop three_stacked = Undefined /\
  lowerSelectionToBottom three_stacked = Undefined /\
  selectedList three_stacked = [0; 2]%nat /\
  aboveb (mObjectList three_stacked) 2 0 = true /\
  mObjectList (raiseSelectionToTop_given (selectedList three_stacked) three_stacked)
  = [1; 0; 2]%nat /\
  mObjectList (lowerSelectionToBottom_given (selectedList three_stacked) three_stacked)
  = [2; 0; 1]%nat /\
  aboveb [2; 0; 1]%nat 2 0 = false /\
  aboveb [2; 0; 1]%nat 0 2 = true.
Proof. repeat split. Qed.

(** ** The gate of the alignment operations *)

Lemma isSelectionAtomic_loop_count (h : store) (l : list ptr) :
  forall n : Z,
    (0 <= n <= 1)%Z ->
    isSelectionAtomic_loop h l n =
    (Z.of_nat (List.length (filter (fun p => isSelected (h p)) l)) + n =? 1)%Z.
Proof.
  induction l as [|a l IH]; intros n Hn; simpl.
  - reflexivity.
  - destruct (isSelected (h a)) eqn:E.
    + cbn [List.length]. destruct (n + 1 >? 1)%Z eqn:G.
      * symmetry. apply Z.eqb_neq. apply Z.gtb_lt in G. lia.
      * rewrite IH by (rewrite Z.gtb_ltb in G; apply Z.ltb_ge in G; lia).
        f_equal. lia.
    + now apply IH.
Qed.

(** The gate lets exactly the selections of two or more objects through. *)
Lemma alignment_gate (m : LabelModel) :
  isSelectionEmpty m || isSelectionAtomic m =
  (List.length (selectedList m) <=? 1)%nat.
Proof.
  unfold isSelectionAtomic.
  rewrite isSelectionAtomic_loop_count by lia.
  destruct (isSelectionEmpty m) eqn:E.
  - apply isSelectionEmpty_selectedList in E. now rewrite E.
  - rewrite selectedList_filter. unfold selected. simpl.
    assert (H : selectedList m <> [])
      by (intros H; apply isSelectionEmpty_selectedList in H; congruence).
    rewrite selectedList_filter in H. unfold selected in H.
    destruct (filter (fun p => isSelected (objects m p)) (mObjectList m))
      as [|a [|b t]]; [congruence | reflexivity |].
    cbn [List.length]. apply Z.eqb_neq. lia.
Qed.

(** With no or one object selected the alignment operations return at once
    and leave the model as it is. *)
Lemma alignment_of_small_selection (m : LabelModel) :
  (List.length (selectedList m) <= 1)%nat ->
  alignSelectionLeft m = Returned m /\
  alignSelectionRight m = Returned m /\
  alignSelectionHCenter m = Returned m.
Proof.
  intros H. apply Nat.leb_le in H.
  unfold alignSelectionLeft, alignSelectionRight, alignSelectionHCenter.
  now rewrite alignment_gate, H.
Qed.

(** With two or more objects selected they ask [getSelection] for the list,
    and get none. *)
Lemma alignment_of_large_selection (m : LabelModel) :
  (2 <= List.length (selectedList m))%nat ->
  alignSelectionLeft m = Undefined /\
  alignSelectionRight m = Undefined /\
  alignSelectionHCenter m = Undefined.
Proof.
  intros H. apply Nat.leb_gt in H.
  unfold alignSelectionLeft, alignSelectionRight, alignSelectionHCenter.
  now rewrite alignment_gate, H.
Qed.

(** The first loop of [alignSelectionHCenter] sums the centers and counts
    the objects. *)
Lemma hcenter_sum_spec (h : store) (sl : list ptr) :
  (fst (hcenter_sum h sl) ==
   fold_right Qplus 0 (map (fun p => hcenter (getExtent (h p))) sl))%Q /\
  snd (hcenter_sum h sl) = Z.of_nat (List.length sl).
Proof.
  unfold hcenter_sum.
  assert (G : forall (xsum : Q) (n : Z),
             (fst (foreach sl
                     (fun object '(xsum, n) =>
                        let r := getExtent (h object) in
                        ((xsum + hcenter r)%Q, (n + 1)%Z)) (xsum, n)) ==
              xsum + fold_right Qplus 0
                       (map (fun p => hcenter (getExtent (h p))) sl))%Q /\
             snd (foreach sl
                    (fun object '(xsum, n) =>
                       let r := getExtent (h object) in
                       ((xsum + hcenter r)%Q, (n + 1)%Z)) (xsum, n)) =
             (n + Z.of_nat (List.length sl))%Z).
  { induction sl as [|a sl IH]; intros xsum n.
    - simpl. split; [ring | lia].
    - rewrite foreach_cons.
      destruct (IH (xsum + hcenter (getExtent (h a)))%Q (n + 1)%Z) as [H1 H2].
      split.
      + eapply Qeq_trans; [exact H1 | simpl; ring].
      + etransitivity; [exact H2 | cbn [List.length]; lia]. }
  destruct (G 0%Q 0%Z) as [H1 H2]. split.
  - eapply Qeq_trans; [exact H1 | ring].
  - etransitivity; [exact H2 | lia].
Qed.

(** ** Alignment: what the bodies do in general *)

Local Open Scope Q_scope.

Lemma Qltb_lt (a b : double) : Qltb a b = true <-> a < b.
Proof.
  unfold Qltb. rewrite negb_true_iff. split.
  - intros H. apply Qnot_le_lt. intros Hle. apply Qle_bool_iff in Hle. congruence.
  - intros H. destruct (Qle_bool b a) eqn:E; [|reflexivity].
    apply Qle_bool_iff in E. exfalso. apply (Qlt_not_le _ _ H E).
Qed.

Lemma Qplus_minus_back (a b : Q) : a == b + (a - b).
Proof. ring. Qed.

Lemma Qltb_ge (a b : double) : Qltb a b = false <-> b <= a.
Proof.
  unfold Qltb. rewrite negb_false_iff. apply Qle_bool_iff.
Qed.

Lemma moved_horizontally_refl (m : LabelModel) : moved_horizontally m m.
Proof. repeat split; reflexivity. Qed.

Lemma moved_horizontally_trans (m1 m2 m3 : LabelModel) :
  moved_horizontally m1 m2 -> moved_horizontally m2 m3 -> moved_horizontally m1 m3.
Proof.
  intros [Hl [Hm [He Ho]]] [Hl' [Hm' [He' Ho']]].
  repeat split; try congruence;
    destruct (Ho p) as [Hs [Hy1 [Hy2 Hw]]];
    destruct (Ho' p) as [Hs' [Hy1' [Hy2' Hw']]].
  - congruence.
  - now rewrite Hy1'.
  - now rewrite Hy2'.
  - now rewrite Hw'.
Qed.

Lemma moved_horizontally_step (dx : double) (a : ptr) (m : LabelModel) :
  moved_horizontally m (on_object (setPositionRelative dx 0) a m).
Proof.
  split; [reflexivity | split; [reflexivity | split; [reflexivity |]]].
  intros p. unfold selected. simpl. unfold call, upd.
  destruct (Nat.eqb p a) eqn:E; [apply Nat.eqb_eq in E; subst |].
  - unfold setPositionRelative, translate, getExtent, isSelected; cbn [mExtent mSelectedFlag x1 x2 y1 y2].
    split; [reflexivity | split; [ring | split; [ring | ring]]].
  - split; [reflexivity | split; [reflexivity | split; reflexivity]].
Qed.

(** The shifting loop, for an edge or center [e] that moves along with the
    object: afterwards [e] lies on [c] for every object of the list, the
    objects outside the list are untouched, and the move is horizontal. *)
Lemma shift_to_spec (e : LabelRegion -> double) (c : double) :
  (forall r dx, e (translate dx 0 r) == e r + dx) ->
  forall (sl : list ptr) (m : LabelModel),
    moved_horizontally m (shift_to e c sl m) /\
    (forall p, In p sl -> e (getExtent (objects (shift_to e c sl m) p)) == c) /\
    (forall p, ~ In p sl -> objects (shift_to e c sl m) p = objects m p).
Proof.
  intros He sl. induction sl as [|a sl IH]; intros m.
  - split; [apply moved_horizontally_refl | split; [intros p [] | reflexivity]].
  - unfold shift_to. rewrite foreach_cons.
    set (m1 := on_object _ a m).
    change (foreach sl _ m1) with (shift_to e c sl m1).
    destruct (IH m1) as [Hmv [Hin Hout]].
    split; [|split].
    + eapply moved_horizontally_trans; [|exact Hmv].
      apply moved_horizontally_step.
    + intros p Hp. destruct (in_dec Nat.eq_dec p sl) as [Hsl | Hsl].
      * now apply Hin.
      * destruct Hp as [<- | Hp]; [|contradiction].
        rewrite (Hout a Hsl). unfold m1. simpl. unfold call.
        rewrite upd_same. simpl. unfold getExtent. rewrite He. ring.
    + intros p Hp. rewrite Hout by (intros H; apply Hp; now right).
      unfold m1. simpl. unfold call. apply upd_other.
      intros ->. apply Hp. now left.
Qed.

Lemma x1_translate (r : LabelRegion) (dx : double) :
  x1 (translate dx 0 r) == x1 r + dx.
Proof. reflexivity. Qed.

Lemma hcenter_translate (r : LabelRegion) (dx : double) :
  hcenter (translate dx 0 r) == hcenter r + dx.
Proof. unfold hcenter. simpl. field. Qed.

(** The search for the smallest value of [f] over a list, started at [init]. *)
Lemma min_loop (f : ptr -> double) (sl : list ptr) :
  forall init : double,
    let r := foreach sl (fun object acc => if Qltb (f object) acc then f object else acc)
               init in
    r <= init /\
    (forall p, In p sl -> r <= f p) /\
    (r = init \/ exists p, In p sl /\ r = f p).
Proof.
  induction sl as [|a sl IH]; intros init.
  - simpl. split; [apply Qle_refl | split; [intros p [] | now left]].
  - cbv zeta. rewrite foreach_cons.
    destruct (IH (if Qltb (f a) init then f a else init)) as [Hle [Hall Hex]].
    destruct (Qltb (f a) init) eqn:E.
    + apply Qltb_lt in E. split; [|split].
      * eapply Qle_trans; [exact Hle | now apply Qlt_le_weak].
      * intros p [<- | Hp]; [exact Hle | now apply Hall].
      * right. destruct Hex as [-> | [p [Hp ->]]].
        -- exists a. split; [now left | reflexivity].
        -- exists p. split; [now right | reflexivity].
    + apply Qltb_ge in E. split; [exact Hle | split].
      * intros p [<- | Hp]; [eapply Qle_trans; eassumption | now apply Hall].
      * destruct Hex as [-> | [p [Hp ->]]]; [now left |].
        right. exists p. split; [now right | reflexivity].
Qed.

(** The search for the largest value of [f] over a list, started at [init]. *)
Lemma max_loop (f : ptr -> double) (sl : list ptr) :
  forall init : double,
    let r := foreach sl (fun object acc => if Qltb acc (f object) then f object else acc)
               init in
    init <= r /\
    (forall p, In p sl -> f p <= r) /\
    (r = init \/ exists p, In p sl /\ r = f p).
Proof.
  induction sl as [|a sl IH]; intros init.
  - simpl. split; [apply Qle_refl | split; [intros p [] | now left]].
  - cbv zeta. rewrite foreach_cons.
    destruct (IH (if Qltb init (f a) then f a else init)) as [Hle [Hall Hex]].
    destruct (Qltb init (f a)) eqn:E.
    + apply Qltb_lt in E. split; [|split].
      * eapply Qle_trans; [apply Qlt_le_weak; exact E | exact Hle].
      * intros p [<- | Hp]; [exact Hle | now apply Hall].
      * right. destruct Hex as [-> | [p [Hp ->]]].
        -- exists a. split; [now left | reflexivity].
        -- exists p. split; [now right | reflexivity].
    + apply Qltb_ge in E. split; [exact Hle | split].
      * intros p [<- | Hp]; [eapply Qle_trans; eassumption | now apply Hall].
      * destruct Hex as [-> | [p [Hp ->]]]; [now left |].
        right. exists p. split; [now right | reflexivity].
Qed.

(** The body of [alignSelectionLeft] on any list of which some object has its
    left edge at 7200 or less: every object of the list ends with its left
    edge on the smallest left edge of the list; the move is horizontal and
    the objects outside the list are untouched. *)
Lemma alignSelectionLeft_given_aligns (sl : list ptr) (m : LabelModel) :
  let m' := alignSelectionLeft_given sl m in
  (exists q, In q sl /\ x1 (getExtent (objects m q)) <= 7200) ->
  exists xmin : double,
    (forall p, In p sl -> xmin <= x1 (getExtent (objects m p))) /\
    (exists p, In p sl /\ xmin == x1 (getExtent (objects m p))) /\
    (forall p, In p sl -> x1 (getExtent (objects m' p)) == xmin) /\
    (forall p, ~ In p sl -> objects m' p = objects m p) /\
    (forall p, y1 (getExtent (objects m' p)) == y1 (getExtent (objects m p)) /\
               y2 (getExtent (objects m' p)) == y2 (getExtent (objects m p))) /\
    mObjectList m' = mObjectList m.
Proof.
  intros m' [q [Hq Hq7200]].
  destruct (min_loop (fun p => x1 (getExtent (objects m p))) sl 7200)
    as [Hinit [Hall Hex]].
  cbv zeta in Hinit, Hall, Hex.
  match type of Hinit with ?t <= _ => set (xmin := t) in * end.
  assert (Hobj : objects m' = objects (shift_to x1 xmin sl m)) by reflexivity.
  assert (Hlist : mObjectList m' = mObjectList (shift_to x1 xmin sl m)) by reflexivity.
  destruct (shift_to_spec x1 xmin x1_translate sl m) as [[Hl [_ [_ Hmv]]] [Hin Hout]].
  exists xmin. repeat split.
  - exact Hall.
  - destruct Hex as [Heq | [p [Hp Heq]]].
    + exists q. split; [exact Hq |]. apply Qle_antisym; [now apply Hall |].
      rewrite Heq. exact Hq7200.
    + exists p. split; [exact Hp |]. now rewrite Heq.
  - intros p Hp. rewrite Hobj. now apply Hin.
  - intros p Hp. rewrite Hobj. now apply Hout.
  - rewrite Hobj. apply Hmv.
  - rewrite Hobj. apply Hmv.
  - now rewrite Hlist.
Qed.

(** The body of [alignSelectionRight] on any list of which some object has its
    left edge at -7200 or more: every object of the list ends with its left
    edge on the largest left edge of the list and keeps its width, so that
    its right edge ends at that left edge plus its own width. *)
Lemma alignSelectionRight_given_aligns (sl : list ptr) (m : LabelModel) :
  let m' := alignSelectionRight_given sl m in
  (exists q, In q sl /\ -7200 <= x1 (getExtent (objects m q))) ->
  exists xmax : double,
    (forall p, In p sl -> x1 (getExtent (objects m p)) <= xmax) /\
    (exists p, In p sl /\ xmax == x1 (getExtent (objects m p))) /\
    (forall p, In p sl -> x1 (getExtent (objects m' p)) == xmax) /\
    (forall p, In p sl ->
               x2 (getExtent (objects m' p)) ==
               xmax + (x2 (getExtent (objects m p)) - x1 (getExtent (objects m p)))).
Proof.
  intros m' [q [Hq Hq7200]].
  destruct (max_loop (fun p => x1 (getExtent (objects m p))) sl (-7200))
    as [Hinit [Hall Hex]].
  cbv zeta in Hinit, Hall, Hex.
  match type of Hinit with _ <= ?t => set (xmax := t) in * end.
  assert (Hobj : objects m' = objects (shift_to x1 xmax sl m)) by reflexivity.
  destruct (shift_to_spec x1 xmax x1_translate sl m) as [[_ [_ [_ Hmv]]] [Hin _]].
  exists xmax. repeat split.
  - exact Hall.
  - destruct Hex as [Heq | [p [Hp Heq]]].
    + exists q. split; [exact Hq |]. apply Qle_antisym; [| now apply Hall].
      rewrite Heq. exact Hq7200.
    + exists p. split; [exact Hp |]. now rewrite Heq.
  - intros p Hp. rewrite Hobj. now apply Hin.
  - intros p Hp. rewrite Hobj.
    destruct (Hmv p) as [_ [_ [_ Hw]]]. rewrite <- Hw, (Hin p Hp).
    apply Qplus_minus_back.
Qed.

(** The search for the center closest to [xavg], started at the center [c0]:
    either no object of the list is closer to [xavg] than [c0] and [c0] is
    kept, or the center found is that of an object of the list which is
    closer than [c0], closer than every object before it and at least as
    close as every object after it. *)
Lemma closest_loop (f : ptr -> double) (xavg : double) (sl : list ptr) :
  forall xc d : double,
    let r :=
      foreach sl
        (fun object '(xcenter, dxmin) =>
           let dx := fabs (xavg - f object) in
           if Qltb dx dxmin then (f object, dx) else (xcenter, dxmin))
        (xc, d) in
    (r = (xc, d) /\ forall q, In q sl -> d <= fabs (xavg - f q)) \/
    (exists pre p post,
        sl = pre ++ p :: post /\
        r = (f p, fabs (xavg - f p)) /\
        fabs (xavg - f p) < d /\
        (forall q, In q pre -> fabs (xavg - f p) < fabs (xavg - f q)) /\
        (forall q, In q post -> fabs (xavg - f p) <= fabs (xavg - f q))).
Proof.
  induction sl as [|a sl IH]; intros xc d.
  - left. split; [reflexivity | intros q []].
  - cbv zeta. rewrite foreach_cons.
    destruct (Qltb (fabs (xavg - f a)) d) eqn:E.
    + apply Qltb_lt in E.
      destruct (IH (f a) (fabs (xavg - f a)))
        as [[Hr Hall] | [pre [p [post [Hsl [Hr [Hlt [Hpre Hpost]]]]]]]].
      * right. exists [], a, sl.
        split; [reflexivity | split; [exact Hr | split; [exact E | split]]].
        -- intros q [].
        -- exact Hall.
      * right. exists (a :: pre), p, post.
        split; [now rewrite Hsl | split; [exact Hr | split; [| split]]].
        -- eapply Qlt_trans; eassumption.
        -- intros q [<- | Hq]; [assumption | now apply Hpre].
        -- exact Hpost.
    + apply Qltb_ge in E.
      destruct (IH xc d)
        as [[Hr Hall] | [pre [p [post [Hsl [Hr [Hlt [Hpre Hpost]]]]]]]].
      * left. split; [exact Hr |].
        intros q [<- | Hq]; [assumption | now apply Hall].
      * right. exists (a :: pre), p, post.
        split; [now rewrite Hsl | split; [exact Hr | split; [exact Hlt | split]]].
        -- intros q [<- | Hq]; [|now apply Hpre].
           eapply Qlt_le_trans; eassumption.
        -- exact Hpost.
Qed.

(** The body of [alignSelectionHCenter] on any list of which some object has
    its center closer to the mean of the centers than 7200 is: the anchor is
    the first object of the list among those closest to the mean, and every
    object of the list ends with its horizontal center on the anchor's. *)
Lemma alignSelectionHCenter_given_aligns (sl : list ptr) (m : LabelModel) :
  let m' := alignSelectionHCenter_given sl m in
  let c := fun p => hcenter (getExtent (objects m p)) in
  let xavg := hcenter_mean (objects m) sl in
  (exists q, In q sl /\ fabs (xavg - c q) < fabs (xavg - 7200)) ->
  exists pre anchor post,
    sl = pre ++ anchor :: post /\
    (forall q, In q pre -> fabs (xavg - c anchor) < fabs (xavg - c q)) /\
    (forall q, In q post -> fabs (xavg - c anchor) <= fabs (xavg - c q)) /\
    (forall p, In p sl -> hcenter (getExtent (objects m' p)) == c anchor) /\
    (forall p, ~ In p sl -> objects m' p = objects m p) /\
    (forall p, y1 (getExtent (objects m' p)) == y1 (getExtent (objects m p)) /\
               y2 (getExtent (objects m' p)) == y2 (getExtent (objects m p))).
Proof.
  intros m' c xavg [q [Hq Hcloser]].
  assert (Hobj : objects m' =
                 objects (shift_to hcenter
                            (fst (hcenter_closest (objects m) sl xavg)) sl m)).
  { unfold m', alignSelectionHCenter_given, xavg, hcenter_mean.
    destruct (hcenter_sum (objects m) sl) as [xsum n].
    destruct (hcenter_closest (objects m) sl (xsum / inject_Z n)) as [xc d].
    reflexivity. }
  destruct (closest_loop c xavg sl 7200 (fabs (xavg - 7200)))
    as [[Hr Hall] | [pre [p [post [Hsl [Hr [Hlt [Hpre Hpost]]]]]]]].
  - exfalso. apply (Qlt_not_le _ _ Hcloser). now apply Hall.
  - assert (Hc : hcenter_closest (objects m) sl xavg = (c p, fabs (xavg - c p)))
      by exact Hr.
    rewrite Hc in Hobj. simpl fst in Hobj.
    destruct (shift_to_spec hcenter (c p) hcenter_translate sl m)
      as [[_ [_ [_ Hmv]]] [Hin Hout]].
    exists pre, p, post.
    split; [exact Hsl | split; [exact Hpre | split; [exact Hpost |]]].
    split; [|split].
    + intros o Ho. rewrite Hobj. now apply Hin.
    + intros o Ho. rewrite Hobj. now apply Hout.
    + intros o. rewrite Hobj. split; apply (Hmv o).
Qed.

Local Close Scope Q_scope.

(** ** Alignment: what the code does on concrete selections *)

Local Open Scope Q_scope.

(** C1. What the code does on two selected objects whose left edges are at
    7300 and 7400.  [alignSelectionLeft] passes its gate (the selection is
    neither empty nor atomic) and takes its list from [getSelection], which
    returns nothing.  Run on the list that [getSelection] builds, its body
    starts the search for the minimum at 7200 and moves both left edges to
    7200, which is not the smallest left edge seen before the call (7300). *)
Theorem alignSelectionLeft_beyond_start_value :
  let m := far_right_pair in
  let m' := alignSelectionLeft_given (selectedList m) m in
  isSelectionEmpty m = false /\ isSelectionAtomic m = false /\
  alignSelectionLeft m = Undefined /\
  selectedList m = [0; 1]%nat /\
  x1 (getExtent (objects m 0%nat)) == 7300 /\
  x1 (getExtent (objects m 1%nat)) == 7400 /\
  x1 (getExtent (objects m' 0%nat)) == 7200 /\
  x1 (getExtent (objects m' 1%nat)) == 7200.
Proof. repeat split. Qed.

(** C6. What the code does on two selected objects with extents
    (0,0)-(10,10) and (20,0)-(50,10).  [alignSelectionRight] takes its list
    from [getSelection], which returns nothing.  Run on the list that
    [getSelection] builds, its body finds the largest left edge, 20, and moves
    every left edge there: the right edges end at 30 and 50, neither
    on the extremum nor on one line. *)
Theorem alignSelectionRight_aligns_left_edges :
  let m := narrow_and_wide in
  let m' := alignSelectionRight_given (selectedList m) m in
  isSelectionEmpty m = false /\ isSelectionAtomic m = false /\
  alignSelectionRight m = Undefined /\
  selectedList m = [0; 1]%nat /\
  x1 (getExtent (objects m' 0%nat)) == 20 /\
  x1 (getExtent (objects m' 1%nat)) == 20 /\
  x2 (getExtent (objects m' 0%nat)) == 30 /\
  x2 (getExtent (objects m' 1%nat)) == 50.
Proof. repeat split. Qed.

(** C5. What the code does on two selected objects with centers 7000 and
    8000.  [alignSelectionHCenter] takes its list from [getSelection], which
    returns nothing.  Run on the list that [getSelection] builds, its body
    computes the mean 7500, starts the search for the closest center at 7200
    (300 away from the mean) and finds no object closer than that: both
    centers are moved to 7200, the center of neither object. *)
Theorem alignSelectionHCenter_beyond_start_value :
  let m := far_centers in
  let m' := alignSelectionHCenter_given (selectedList m) m in
  isSelectionEmpty m = false /\ isSelectionAtomic m = false /\
  alignSelectionHCenter m = Undefined /\
  selectedList m = [0; 1]%nat /\
  hcenter (getExtent (objects m 0%nat)) == 7000 /\
  hcenter (getExtent (objects m 1%nat)) == 8000 /\
  hcenter (getExtent (objects m' 0%nat)) == 7200 /\
  hcenter (getExtent (objects m' 1%nat)) == 7200.
Proof. repeat split. Qed.

(** The scenario of the specification, run through the body of
    [alignSelectionHCenter] on the list that [getSelection] builds: the mean
    of 50, 150 and 90 is 290/3, the closest center is 90, and all three
    objects end with the horizontal center 90 and the vertical center 50. *)
Lemma alignSelectionHCenter_given_three_centers :
  let m := three_centers in
  let m' := alignSelectionHCenter_given (selectedList m) m in
  selectedList m = [0; 1; 2]%nat /\
  hcenter_mean (objects m) (selectedList m) == 290 # 3 /\
  Forall (fun p => hcenter (getExtent (objects m' p)) == 90 /\
                   vcenter (getExtent (objects m' p)) == 50) [0; 1; 2]%nat.
Proof.
  split; [reflexivity | split; [reflexivity |]].
  repeat (apply Forall_cons; [split; reflexivity |]). apply Forall_nil.
Qed.

Local Close Scope Q_scope.

(** ** The registry lookups *)

Lemma isNull_or_isEmpty (k : Db.QString) :
  Db.isNull k || Db.isEmpty k = Db.isEmpty k.
Proof. destruct k; reflexivity. Qed.

Lemma not_isNull_and_not_isEmpty (k : Db.QString) :
  negb (Db.isNull k) && negb (Db.isEmpty k) = negb (Db.isEmpty k).
Proof. destruct k; reflexivity. Qed.

Lemma find_first_none (E : Type) (test : E -> bool) (l : list E) :
  (forall e, In e l -> test e = false) -> Db.find_first test l = None.
Proof.
  induction l as [|a l IH]; intros H; simpl; [reflexivity |].
  rewrite (H a (or_introl eq_refl)). apply IH. intros e He. apply H. now right.
Qed.

Lemma find_first_split (E : Type) (test : E -> bool) (pre : list E) (e : E)
  (post : list E) :
  (forall e', In e' pre -> test e' = false) -> test e = true ->
  Db.find_first test (pre ++ e :: post) = Some e.
Proof.
  induction pre as [|a pre IH]; intros Hpre He; simpl.
  - now rewrite He.
  - rewrite (Hpre a (or_introl eq_refl)). apply IH; [|assumption].
    intros e' H. apply Hpre. now right.
Qed.

(** The shape shared by the lookups that return an entry. *)
Lemma entry_lookup_shape (E : Type) (l : list E) (key : E -> Db.QString)
  (L : Db.QString -> outcome (option E)) :
  (forall k, L k =
     if Db.isNull k || Db.isEmpty k
     then e <- Db.first l ;; Returned (Some e)
     else Returned (Db.find_first (fun e => Db.qeqb (key e) k) l)) ->
  entry_lookup l key L.
Proof.
  intros HL. split; [|split].
  - intros k e t Hk ->. now rewrite HL, isNull_or_isEmpty, Hk.
  - intros k Hk _ Hno. rewrite HL, isNull_or_isEmpty, Hk.
    now rewrite find_first_none.
  - intros k pre e post Hk _ -> Hpre He. rewrite HL, isNull_or_isEmpty, Hk.
    now rewrite find_first_split.
Qed.

(** The shape shared by the lookups that return a string. *)
Lemma string_lookup_shape (E : Type) (l : list E) (key proj : E -> Db.QString)
  (L : Db.QString -> outcome Db.QString) :
  (forall k, L k =
     if negb (Db.isNull k) && negb (Db.isEmpty k)
     then
       match Db.find_first (fun e => Db.qeqb (key e) k) l with
       | Some e => Returned (proj e)
       | None => Returned Db.empty
       end
     else Returned Db.empty) ->
  string_lookup any_identifier l key proj L.
Proof.
  intros HL. split; [|split].
  - intros k Hk. now rewrite HL, not_isNull_and_not_isEmpty, Hk.
  - intros k Hk _ Hno. rewrite HL, not_isNull_and_not_isEmpty, Hk. simpl.
    now rewrite find_first_none.
  - intros k pre e post Hk _ -> Hpre He.
    rewrite HL, not_isNull_and_not_isEmpty, Hk. simpl.
    now rewrite find_first_split.
Qed.

(** A string lookup calls its entry lookup with a non-empty identifier only. *)
Ltac through_entry_lookup k :=
  rewrite not_isNull_and_not_isEmpty, isNull_or_isEmpty;
  destruct (Db.isEmpty k); reflexivity.

(** C9, as amended.  The lookups that return an entry answer a null or empty
    identifier with the first entry of their list, when there is one, a
    non-empty identifier that matches no entry with NULL, and a matching
    identifier with the first entry that matches.  The lookups that return a
    string answer a null or empty identifier with the empty string, not with
    a default entry; a non-empty identifier that matches no entry with the
    empty string; a matching identifier with the string of the first entry
    that matches.  [lookupPaperNameFromId] does so for every id but "Other",
    which it answers with the name kept for it, registered or not. *)
Theorem registry_lookups_contract (db : Db.Db) :
  entry_lookup (Db.mPapers db) Db.Paper.name (Db.lookupPaperFromName db) /\
  entry_lookup (Db.mPapers db) Db.Paper.id (Db.lookupPaperFromId db) /\
  entry_lookup (Db.mCategories db) Db.Category.name (Db.lookupCategoryFromName db) /\
  entry_lookup (Db.mCategories db) Db.Category.id (Db.lookupCategoryFromId db) /\
  entry_lookup (Db.mVendors db) Db.Vendor.name (Db.lookupVendorFromName db) /\
  entry_lookup (Db.mTemplates db) Db.Template.name (Db.lookupTemplateFromName db) /\
  string_lookup any_identifier (Db.mPapers db) Db.Paper.name Db.Paper.id
    (Db.lookupPaperIdFromName db) /\
  string_lookup any_identifier (Db.mCategories db) Db.Category.name Db.Category.id
    (Db.lookupCategoryIdFromName db) /\
  string_lookup any_identifier (Db.mCategories db) Db.Category.id Db.Category.name
    (Db.lookupCategoryNameFromId db) /\
  string_lookup any_identifier (Db.mVendors db) Db.Vendor.name Db.Vendor.url
    (Db.lookupVendorUrlFromName db) /\
  string_lookup not_Other (Db.mPapers db) Db.Paper.id Db.Paper.name
    (Db.lookupPaperNameFromId db) /\
  (forall id, Db.isEmpty id = false -> Db.isPaperIdOther id = true ->
              Db.lookupPaperNameFromId db id = Returned (Db.mPaperNameOther db)).
Proof.
  repeat match goal with |- _ /\ _ => split end.
  - apply entry_lookup_shape. reflexivity.
  - apply entry_lookup_shape. reflexivity.
  - apply entry_lookup_shape. reflexivity.
  - apply entry_lookup_shape. reflexivity.
  - apply entry_lookup_shape. reflexivity.
  - apply entry_lookup_shape. reflexivity.
  - apply string_lookup_shape. intros k. unfold Db.lookupPaperIdFromName,
      Db.lookupPaperFromName. through_entry_lookup k.
  - apply string_lookup_shape. intros k. unfold Db.lookupCategoryIdFromName,
      Db.lookupCategoryFromName. through_entry_lookup k.
  - apply string_lookup_shape. intros k. unfold Db.lookupCategoryNameFromId,
      Db.lookupCategoryFromId. through_entry_lookup k.
  - apply string_lookup_shape. intros k. unfold Db.lookupVendorUrlFromName,
      Db.lookupVendorFromName. through_entry_lookup k.
  - split; [|split].
    + intros k Hk. unfold Db.lookupPaperNameFromId.
      now rewrite not_isNull_and_not_isEmpty, Hk.
    + intros k Hk Hdom Hno. unfold Db.lookupPaperNameFromId, Db.lookupPaperFromId.
      unfold not_Other in Hdom. apply negb_true_iff in Hdom.
      rewrite not_isNull_and_not_isEmpty, isNull_or_isEmpty, Hk, Hdom. simpl.
      now rewrite (@find_first_none _ (fun e => Db.qeqb (Db.Paper.id e) k) _ Hno).
    + intros k pre e post Hk Hdom Hl Hpre He.
      unfold Db.lookupPaperNameFromId, Db.lookupPaperFromId.
      unfold not_Other in Hdom. apply negb_true_iff in Hdom.
      rewrite not_isNull_and_not_isEmpty, isNull_or_isEmpty, Hk, Hdom, Hl. simpl.
      now rewrite (@find_first_split _ (fun e => Db.qeqb (Db.Paper.id e) k)
                     pre e post Hpre He).
  - intros id Hk Hother. unfold Db.lookupPaperNameFromId.
    now rewrite not_isNull_and_not_isEmpty, Hk, Hother.
Qed.

(** In a registry of the papers A4 and US-Letter: the null name gives the
    first paper, an unknown name NULL, a known name its paper; and the null
    name gives the empty string where a string is asked for. *)
Lemma registry_lookups_contract_witness :
  Db.lookupPaperFromName two_papers Db.QNull = Returned (Some paper_A4) /\
  Db.lookupPaperFromName two_papers (Db.QStr "B5") = Returned None /\
  Db.lookupPaperFromName two_papers (Db.QStr "US Letter")
  = Returned (Some paper_Letter) /\
  Db.lookupPaperIdFromName two_papers Db.QNull = Returned Db.empty.
Proof.
  destruct (registry_lookups_contract two_papers)
    as [[Hdefault [Hunknown Hknown]] [_ [_ [_ [_ [_ [[Hempty _] _]]]]]]].
  split; [|split; [|split]].
  - apply (Hdefault Db.QNull paper_A4 [paper_Letter]); reflexivity.
  - apply (Hunknown (Db.QStr "B5")); [reflexivity | reflexivity |].
    intros e [<- | [<- | []]]; reflexivity.
  - apply (Hknown (Db.QStr "US Letter") [paper_A4] paper_Letter []);
      [reflexivity | reflexivity | reflexivity | | reflexivity].
    intros e [<- | []]; reflexivity.
  - apply (Hempty Db.QNull). reflexivity.
Defined.

(** C9 as stated fails for the lookups that return a string.  In the registry
    of the papers A4 and US-Letter, [lookupPaperIdFromName] answers the null
    name with the empty string and not with the id of the first paper; and
    [lookupPaperNameFromId] answers the id "Other", which no paper has, with
    a name and not with the empty string. *)
Lemma string_lookups_have_no_default_entry :
  ~ default_is_first (Db.mPapers two_papers) Db.Paper.id
      (Db.lookupPaperIdFromName two_papers) /\
  ~ unknown_is_absent any_identifier (Db.mPapers two_papers) Db.Paper.id Db.empty
      (Db.lookupPaperNameFromId two_papers).
Proof.
  split.
  - intros H.
    specialize (H Db.QNull paper_A4 [paper_Letter] eq_refl eq_refl).
    discriminate H.
  - intros H.
    assert (Hno : forall e, In e (Db.mPapers two_papers) ->
                            Db.qeqb (Db.Paper.id e) (Db.QStr "Other") = false).
    { intros e [<- | [<- | []]]; reflexivity. }
    specialize (H (Db.QStr "Other") eq_refl eq_refl Hno).
    discriminate H.
Qed.

(** With no paper registered, [first()] has no entry to give for a null name. *)
Lemma lookupPaperFromName_empty_registry :
  Db.lookupPaperFromName (Db.mkDb [] [] [] [] (Db.QStr "Other")) Db.QNull = Undefined.
Proof. reflexivity. Qed.

(** * Properties of the further operations *)

(** ** Operations on every selected object *)

(** A method that keeps the selected flag is applied to every selected
    object once per occurrence in the list, and to no other object. *)
Lemma selection_loop_iter (method : LabelModelObject -> LabelModelObject) :
  (forall o, isSelected (method o) = isSelected o) ->
  forall (l : list ptr) (m : LabelModel) (p : ptr),
    objects (selection_loop method l m) p =
    if selected m p
    then Nat.iter (count_occ Nat.eq_dec l p) method (objects m p)
    else objects m p.
Proof.
  intros Hflag l. induction l as [|a l IH]; intros m p.
  - simpl. now destruct (selected m p).
  - unfold selection_loop. rewrite foreach_cons.
    change (foreach l _ ?x) with (selection_loop method l x).
    rewrite IH. cbn [count_occ].
    destruct (isSelected (objects m a)) eqn:Ha.
    + unfold selected. simpl objects. unfold call, upd.
      destruct (Nat.eq_dec a p) as [-> | Hne].
      * rewrite Nat.eqb_refl. cbn iota. rewrite Hflag, Ha.
        now rewrite Nat.iter_succ_r.
      * assert (E : Nat.eqb p a = false) by (apply Nat.eqb_neq; congruence).
        rewrite E. reflexivity.
    + destruct (Nat.eq_dec a p) as [-> | Hne]; [|reflexivity].
      unfold selected. now rewrite Ha.
Qed.

Lemma selection_loop_fields (method : LabelModelObject -> LabelModelObject)
  (l : list ptr) :
  forall m : LabelModel,
    mObjectList (selection_loop method l m) = mObjectList m /\
    mModified (selection_loop method l m) = mModified m /\
    emitted (selection_loop method l m) = emitted m.
Proof.
  induction l as [|a l IH]; intros m; [now repeat split |].
  unfold selection_loop. rewrite foreach_cons.
  change (foreach l _ ?x) with (selection_loop method l x).
  destruct (IH (if isSelected (objects m a) then on_object method a m else m))
    as [H1 [H2 H3]].
  rewrite H1, H2, H3. now destruct (isSelected (objects m a)).
Qed.

Lemma selection_loop_selected (method : LabelModelObject -> LabelModelObject) :
  (forall o, isSelected (method o) = isSelected o) ->
  forall (l : list ptr) (m : LabelModel) (p : ptr),
    selected (selection_loop method l m) p = selected m p.
Proof.
  intros Hflag l m p. unfold selected at 1.
  rewrite (selection_loop_iter method Hflag).
  destruct (selected m p) eqn:E; [|exact E].
  induction (count_occ Nat.eq_dec l p) as [|k IH]; [exact E |].
  rewrite Nat.iter_succ. now rewrite Hflag.
Qed.

(** ** moveSelection *)

Local Open Scope Q_scope.

Lemma moveSelection_loop (dx dy : double) (m : LabelModel) :
  moveSelection dx dy m =
  emit changed
    (with_modified true
       (selection_loop (setPositionRelative dx dy) (mObjectList m) m)).
Proof. reflexivity. Qed.

Lemma setPositionRelative_flag (dx dy : double) (o : LabelModelObject) :
  isSelected (setPositionRelative dx dy o) = isSelected o.
Proof. reflexivity. Qed.

Lemma moveSelection_objects (dx dy : double) (m : LabelModel) (p : ptr) :
  objects (moveSelection dx dy m) p =
  if selected m p
  then Nat.iter (count_occ Nat.eq_dec (mObjectList m) p)
         (setPositionRelative dx dy) (objects m p)
  else objects m p.
Proof.
  rewrite moveSelection_loop. simpl objects.
  apply selection_loop_iter, setPositionRelative_flag.
Qed.

Lemma moveSelection_selected (dx dy : double) (m : LabelModel) (p : ptr) :
  selected (moveSelection dx dy m) p = selected m p.
Proof.
  rewrite moveSelection_loop.
  apply (selection_loop_selected _ (setPositionRelative_flag dx dy)).
Qed.

Lemma moveSelection_list (dx dy : double) (m : LabelModel) :
  mObjectList (moveSelection dx dy m) = mObjectList m.
Proof.
  rewrite moveSelection_loop. simpl.
  apply (selection_loop_fields (setPositionRelative dx dy) (mObjectList m) m).
Qed.

(** X1. In a model whose object list holds no object twice, [moveSelection]
    translates every selected object of the list by (dx, dy): its position
    and its extent. *)
Theorem moveSelection_moves_selected (dx dy : double) (m : LabelModel) (p : ptr) :
  NoDup (mObjectList m) ->
  In p (mObjectList m) ->
  selected m p = true ->
  objects (moveSelection dx dy m) p = setPositionRelative dx dy (objects m p).
Proof.
  intros Hnd Hin Hsel. rewrite moveSelection_objects, Hsel.
  rewrite (proj1 (NoDup_count_occ' Nat.eq_dec (mObjectList m)) Hnd p Hin).
  reflexivity.
Qed.

Lemma moveSelection_moves_selected_witness :
  selected three_stacked 2%nat = true /\
  getExtent (objects (moveSelection 5 7 three_stacked) 2%nat) =
  translate 5 7 (getExtent (objects three_stacked 2%nat)).
Proof.
  split; [reflexivity |].
  rewrite (moveSelection_moves_selected 5 7 three_stacked 2%nat).
  - reflexivity.
  - simpl. repeat constructor; simpl; intuition discriminate.
  - simpl; auto.
  - reflexivity.
Defined.

(** X2. [moveSelection] never touches an object that is not selected or not in
    the object list, and changes neither the object list nor any flag. *)
Theorem moveSelection_frame (dx dy : double) (m : LabelModel) :
  mObjectList (moveSelection dx dy m) = mObjectList m /\
  (forall p, selected (moveSelection dx dy m) p = selected m p) /\
  (forall p, selected m p = false -> objects (moveSelection dx dy m) p = objects m p) /\
  (forall p, ~ In p (mObjectList m) ->
             objects (moveSelection dx dy m) p = objects m p).
Proof.
  split; [apply moveSelection_list | split; [|split]].
  - intros p. apply moveSelection_selected.
  - intros p Hp. now rewrite moveSelection_objects, Hp.
  - intros p Hp. rewrite moveSelection_objects.
    rewrite (proj1 (count_occ_not_In Nat.eq_dec (mObjectList m) p) Hp).
    now destruct (selected m p).
Qed.

Lemma moveSelection_frame_witness :
  selected three_stacked 1%nat = false /\
  objects (moveSelection 5 7 three_stacked) 1%nat = objects three_stacked 1%nat /\
  objects (moveSelection 5 7 three_stacked) 9%nat = objects three_stacked 9%nat.
Proof.
  destruct (moveSelection_frame 5 7 three_stacked) as [_ [_ [Hunsel Hout]]].
  split; [reflexivity | split].
  - apply Hunsel. reflexivity.
  - apply Hout. simpl. intuition discriminate.
Defined.

Lemma isSelectionEmpty_unselected (m : LabelModel) (p : ptr) :
  isSelectionEmpty m = true -> In p (mObjectList m) -> selected m p = false.
Proof.
  unfold isSelectionEmpty, selected.
  induction (mObjectList m) as [|a l IH]; simpl; [tauto |].
  destruct (isSelected (objects m a)) eqn:E; [discriminate |].
  intros H [<- | Hin]; [exact E | now apply IH].
Qed.

(** X3. With nothing selected [moveSelection] moves no object at all; it still
    sets the modified flag and emits [changed]. *)
Theorem moveSelection_nothing_selected (dx dy : double) (m : LabelModel) :
  isSelectionEmpty m = true ->
  (forall p, objects (moveSelection dx dy m) p = objects m p) /\
  mObjectList (moveSelection dx dy m) = mObjectList m /\
  mModified (moveSelection dx dy m) = true /\
  emitted (moveSelection dx dy m) = emitted m ++ [changed].
Proof.
  intros Hempty. split; [|split; [apply moveSelection_list | split]].
  - intros p. rewrite moveSelection_objects.
    destruct (selected m p) eqn:E; [|reflexivity].
    destruct (in_dec Nat.eq_dec p (mObjectList m)) as [Hin | Hout].
    + rewrite (isSelectionEmpty_unselected m p Hempty Hin) in E. discriminate.
    + now rewrite (proj1 (count_occ_not_In Nat.eq_dec (mObjectList m) p) Hout).
  - reflexivity.
  - rewrite moveSelection_loop. simpl. f_equal.
    apply (selection_loop_fields (setPositionRelative dx dy) (mObjectList m) m).
Qed.

Lemma moveSelection_nothing_selected_witness :
  isSelectionEmpty (one_object false) = true /\
  objects (moveSelection 5 7 (one_object false)) 0%nat = objects (one_object false) 0%nat /\
  mModified (one_object false) = false /\
  mModified (moveSelection 5 7 (one_object false)) = true.
Proof.
  destruct (moveSelection_nothing_selected 5 7 (one_object false) eq_refl)
    as [Hobj [_ [Hmod _]]].
  split; [reflexivity | split; [apply Hobj | split; [reflexivity | exact Hmod]]].
Defined.

(** ** centerSelectionHoriz and centerSelectionVert *)















(** ** Vertical alignment *)

Lemma each_once_fields (method : LabelModelObject -> LabelModelObject)
  (l : list ptr) :
  forall m : LabelModel,
    mObjectList (each_once method l m) = mObjectList m /\
    forall p, ~ In p l -> objects (each_once method l m) p = objects m p.
Proof.
  induction l as [|a l IH]; intros m; [now split |].
  unfold each_once. rewrite foreach_cons.
  change (foreach l _ ?x) with (each_once method l x).
  destruct (IH (on_object method a m)) as [Hl Ho]. split; [exact Hl |].
  intros p Hp. rewrite Ho by (intros H; apply Hp; now right).
  simpl. unfold call. apply upd_other. intros ->. apply Hp. now left.
Qed.

(** A loop over a list that holds no object twice calls the method once on
    each object of the list, on the object as it was before the loop. *)
Lemma each_once_NoDup (method : LabelModelObject -> LabelModelObject)
  (l : list ptr) :
  NoDup l ->
  forall (m : LabelModel) (p : ptr),
    In p l -> objects (each_once method l m) p = method (objects m p).
Proof.
  induction 1 as [|a l Hnin Hnd IH]; intros m p Hin; [destruct Hin |].
  unfold each_once. rewrite foreach_cons.
  change (foreach l _ ?x) with (each_once method l x).
  destruct Hin as [<- | Hin].
  - rewrite (proj2 (each_once_fields method l (on_object method a m)) a Hnin).
    simpl. unfold call. apply upd_same.
  - rewrite (IH (on_object method a m) p Hin). simpl. unfold call.
    rewrite upd_other; [reflexivity |]. intros ->. contradiction.
Qed.

(** X10. The loops of [alignSelectionTop], run on a list that holds no object
    twice: [y1_min] is the smallest of 7200 and the top edges of the list,
    and [setPositionRelative(0, y1_min - y1)] is called once on each object of
    the list, [y1] being the top edge of that object before the loops; the
    objects outside the list are not touched and the object list is
    unchanged. *)
Theorem alignSelectionTop_given_shifts (sl : list ptr) (m : LabelModel) :
  NoDup sl ->
  let m' := alignSelectionTop_given sl m in
  exists y1_min : double,
    y1_min <= 7200 /\
    (forall p, In p sl -> y1_min <= y1 (getExtent (objects m p))) /\
    (y1_min = 7200 \/ exists p, In p sl /\ y1_min = y1 (getExtent (objects m p))) /\
    (forall p, In p sl ->
       objects m' p =
       setPositionRelative 0 (y1_min - y1 (getExtent (objects m p))) (objects m p)) /\
    (forall p, ~ In p sl -> objects m' p = objects m p) /\
    mObjectList m' = mObjectList m.
Proof.
  intros Hnd m'.
  destruct (min_loop (fun p => y1 (getExtent (objects m p))) sl 7200)
    as [Hinit [Hall Hex]].
  cbv zeta in Hinit, Hall, Hex.
  match type of Hinit with ?t <= _ => set (y1_min := t) in * end.
  set (method := fun o : LabelModelObject =>
                   setPositionRelative 0 (y1_min - y1 (getExtent o)) o).
  assert (Hobj : objects m' = objects (each_once method sl m)) by reflexivity.
  assert (Hlist : mObjectList m' = mObjectList (each_once method sl m))
    by reflexivity.
  destruct (each_once_fields method sl m) as [Hl Hout].
  exists y1_min.
  split; [exact Hinit | split; [exact Hall | split; [exact Hex |]]].
  split; [|split].
  - intros p Hp. rewrite Hobj. apply (each_once_NoDup method Hnd m p Hp).
  - intros p Hp. rewrite Hobj. now apply Hout.
  - now rewrite Hlist.
Qed.

(** On [two_rows] the top edges are 5 and 30. *)
Lemma alignSelectionTop_given_shifts_witness :
  let m' := alignSelectionTop_given [0; 1]%nat two_rows in
  exists y1_min : double,
    y1_min <= 7200 /\
    (forall p, In p [0; 1]%nat -> y1_min <= y1 (getExtent (objects two_rows p))) /\
    (y1_min = 7200 \/
     exists p, In p [0; 1]%nat /\ y1_min = y1 (getExtent (objects two_rows p))) /\
    (forall p, In p [0; 1]%nat ->
       objects m' p =
       setPositionRelative 0 (y1_min - y1 (getExtent (objects two_rows p)))
         (objects two_rows p)) /\
    (forall p, ~ In p [0; 1]%nat -> objects m' p = objects two_rows p) /\
    mObjectList m' = mObjectList two_rows.
Proof.
  apply (@alignSelectionTop_given_shifts [0; 1]%nat two_rows).
  repeat constructor; simpl; intuition discriminate.
Defined.

(** X11. The loops of [alignSelectionBottom], run on a list that holds no
    object twice, read top edges only: [y1_max] is the largest of -7200 and
    the top edges of the list, and [setPositionRelative(0, y1_max - y1)] is
    called once on each object of the list, [y1] being the top edge of that
    object before the loops; the objects outside the list are not touched
    and the object list is unchanged. *)
Theorem alignSelectionBottom_given_shifts (sl : list ptr) (m : LabelModel) :
  NoDup sl ->
  let m' := alignSelectionBottom_given sl m in
  exists y1_max : double,
    -7200 <= y1_max /\
    (forall p, In p sl -> y1 (getExtent (objects m p)) <= y1_max) /\
    (y1_max = -7200 \/ exists p, In p sl /\ y1_max = y1 (getExtent (objects m p))) /\
    (forall p, In p sl ->
       objects m' p =
       setPositionRelative 0 (y1_max - y1 (getExtent (objects m p))) (objects m p)) /\
    (forall p, ~ In p sl -> objects m' p = objects m p) /\
    mObjectList m' = mObjectList m.
Proof.
  intros Hnd m'.
  destruct (max_loop (fun p => y1 (getExtent (objects m p))) sl (-7200))
    as [Hinit [Hall Hex]].
  cbv zeta in Hinit, Hall, Hex.
  match type of Hinit with _ <= ?t => set (y1_max := t) in * end.
  set (method := fun o : LabelModelObject =>
                   setPositionRelative 0 (y1_max - y1 (getExtent o)) o).
  assert (Hobj : objects m' = objects (each_once method sl m)) by reflexivity.
  assert (Hlist : mObjectList m' = mObjectList (each_once method sl m))
    by reflexivity.
  destruct (each_once_fields method sl m) as [Hl Hout].
  exists y1_max.
  split; [exact Hinit | split; [exact Hall | split; [exact Hex |]]].
  split; [|split].
  - intros p Hp. rewrite Hobj. apply (each_once_NoDup method Hnd m p Hp).
  - intros p Hp. rewrite Hobj. now apply Hout.
  - now rewrite Hlist.
Qed.

Lemma alignSelectionBottom_given_shifts_witness :
  let m' := alignSelectionBottom_given [0; 1]%nat two_rows in
  exists y1_max : double,
    -7200 <= y1_max /\
    (forall p, In p [0; 1]%nat -> y1 (getExtent (objects two_rows p)) <= y1_max) /\
    (y1_max = -7200 \/
     exists p, In p [0; 1]%nat /\ y1_max = y1 (getExtent (objects two_rows p))) /\
    (forall p, In p [0; 1]%nat ->
       objects m' p =
       setPositionRelative 0 (y1_max - y1 (getExtent (objects two_rows p)))
         (objects two_rows p)) /\
    (forall p, ~ In p [0; 1]%nat -> objects m' p = objects two_rows p) /\
    mObjectList m' = mObjectList two_rows.
Proof.
  apply (@alignSelectionBottom_given_shifts [0; 1]%nat two_rows).
  repeat constructor; simpl; intuition discriminate.
Defined.

Local Close Scope Q_scope.

(** ** The gate of all six alignment operations *)

(** X9. With no object or one object selected, each of the six alignment
    operations returns at once: the model stays as it is, the modified flag
    is not set and nothing is emitted. *)
Theorem alignment_needs_two_objects (m : LabelModel) :
  (List.length (filter (selected m) (mObjectList m)) <= 1)%nat ->
  alignSelectionLeft m = Returned m /\
  alignSelectionRight m = Returned m /\
  alignSelectionHCenter m = Returned m /\
  alignSelectionTop m = Returned m /\
  alignSelectionBottom m = Returned m /\
  alignSelectionVCenter m = Returned m.
Proof.
  intros H. rewrite <- selectedList_filter in H. apply Nat.leb_le in H.
  unfold alignSelectionLeft, alignSelectionRight, alignSelectionHCenter,
    alignSelectionTop, alignSelectionBottom, alignSelectionVCenter.
  rewrite alignment_gate, H. repeat split.
Qed.

Lemma alignment_needs_two_objects_witness :
  alignSelectionTop (one_object true) = Returned (one_object true) /\
  alignSelectionVCenter empty_model = Returned empty_model.
Proof.
  split.
  - apply (alignment_needs_two_objects (one_object true)). simpl. lia.
  - apply (alignment_needs_two_objects empty_model). simpl. lia.
Defined.

(** ** The size of the selection *)

Lemma isSelectionEmpty_count (m : LabelModel) :
  isSelectionEmpty m =
  (List.length (filter (selected m) (mObjectList m)) =? 0)%nat.
Proof.
  destruct (isSelectionEmpty m) eqn:E.
  - apply isSelectionEmpty_selectedList in E.
    rewrite selectedList_filter in E. now rewrite E.
  - destruct (filter (selected m) (mObjectList m)) eqn:F; [|reflexivity].
    rewrite <- selectedList_filter in F.
    apply isSelectionEmpty_selectedList in F. congruence.
Qed.

Lemma isSelectionAtomic_count (m : LabelModel) :
  isSelectionAtomic m =
  (List.length (filter (selected m) (mObjectList m)) =? 1)%nat.
Proof.
  unfold isSelectionAtomic. rewrite isSelectionAtomic_loop_count by lia.
  change (fun p => isSelected (objects m p)) with (selected m).
  destruct (List.length (filter (selected m) (mObjectList m))) as [|[|k]];
    try reflexivity.
  apply Z.eqb_neq. lia.
Qed.

(** X13. [isSelectionEmpty] and [isSelectionAtomic] count the positions of the
    object list that hold a selected object: none, and exactly one. *)
Theorem selection_size_queries (m : LabelModel) :
  isSelectionEmpty m =
  (List.length (filter (selected m) (mObjectList m)) =? 0)%nat /\
  isSelectionAtomic m =
  (List.length (filter (selected m) (mObjectList m)) =? 1)%nat.
Proof.
  split.
  - apply isSelectionEmpty_count.
  - apply isSelectionAtomic_count.
Qed.

Lemma isSelectionEmpty_all_unselected (m : LabelModel) :
  (forall p, In p (mObjectList m) -> selected m p = false) ->
  isSelectionEmpty m = true.
Proof.
  unfold isSelectionEmpty, selected.
  induction (mObjectList m) as [|a l IH]; intros H; simpl; [reflexivity |].
  rewrite (H a (or_introl eq_refl)). apply IH. intros p Hp. apply H. now right.
Qed.

Lemma filter_all (A : Type) (f : A -> bool) (l : list A) :
  (forall x, In x l -> f x = true) -> filter f l = l.
Proof.
  induction l as [|a l IH]; intros H; simpl; [reflexivity |].
  rewrite (H a (or_introl eq_refl)). f_equal. apply IH.
  intros x Hx. apply H. now right.
Qed.

Lemma filter_none (A : Type) (f : A -> bool) (l : list A) :
  (forall x, In x l -> f x = false) -> filter f l = [].
Proof.
  induction l as [|a l IH]; intros H; simpl; [reflexivity |].
  rewrite (H a (or_introl eq_refl)). apply IH.
  intros x Hx. apply H. now right.
Qed.

Lemma selectAll_list (m : LabelModel) : mObjectList (selectAll m) = mObjectList m.
Proof.
  unfold selectAll. simpl.
  apply (foreach_preserves (fun m m' => mObjectList m' = mObjectList m));
    [reflexivity | congruence | reflexivity].
Qed.

Lemma unselectAll_list (m : LabelModel) :
  mObjectList (unselectAll m) = mObjectList m.
Proof.
  unfold unselectAll. simpl.
  apply (foreach_preserves (fun m m' => mObjectList m' = mObjectList m));
    [reflexivity | congruence | reflexivity].
Qed.

(** X14. After [unselectAll] the selection is empty; after [selectAll] it is empty
    only when the model holds no object, and atomic exactly when the object
    list has one entry. *)
Theorem select_all_and_the_queries (m : LabelModel) :
  isSelectionEmpty (unselectAll m) = true /\
  isSelectionAtomic (unselectAll m) = false /\
  isSelectionEmpty (selectAll m) = (List.length (mObjectList m) =? 0)%nat /\
  isSelectionAtomic (selectAll m) = (List.length (mObjectList m) =? 1)%nat.
Proof.
  assert (He := isSelectionEmpty_count (unselectAll m)).
  assert (Ha := isSelectionAtomic_count (unselectAll m)).
  assert (He' := isSelectionEmpty_count (selectAll m)).
  assert (Ha' := isSelectionAtomic_count (selectAll m)).
  assert (Hu : filter (selected (unselectAll m)) (mObjectList (unselectAll m)) = []).
  { apply filter_none. rewrite unselectAll_list. intros p Hp.
    rewrite unselectAll_selected. apply existsb_eqb_In in Hp.
    now rewrite Hp, andb_false_r. }
  assert (Hs : filter (selected (selectAll m)) (mObjectList (selectAll m)) =
               mObjectList m).
  { rewrite selectAll_list. apply filter_all. intros p Hp.
    rewrite selectAll_selected. apply existsb_eqb_In in Hp.
    now rewrite Hp, orb_true_r. }
  rewrite Hu in He, Ha. rewrite Hs in He', Ha'.
  repeat split; assumption.
Qed.

(** ** selectRegion, repeated *)

Lemma selectRegion_flags_apart (region : LabelRegion) (m : LabelModel) :
  same_but_flags m (selectRegion region m).
Proof.
  unfold selectRegion.
  destruct (select_if_loop
              (inside (std_min (x1 region) (x2 region))
                      (std_min (y1 region) (y2 region))
                      (std_max (x1 region) (x2 region))
                      (std_max (y1 region) (y2 region)))
              (mObjectList m) m) as [[H _] _].
  exact H.
Qed.

Lemma selectRegion_after (r r' : LabelRegion) (m : LabelModel) (p : ptr) :
  selected (selectRegion r' (selectRegion r m)) p = true <->
  selected m p = true \/
  (In p (mObjectList m) /\
   (fully_contained (getExtent (objects m p)) (normalized r) \/
    fully_contained (getExtent (objects m p)) (normalized r'))).
Proof.
  destruct (selectRegion_flags_apart r m) as [Hl [_ Ho]].
  destruct (Ho p) as [_ [_ Hext]].
  rewrite selectRegion_selected, Hl, Hext, selectRegion_selected. tauto.
Qed.

(** X15. The selection after two calls of [selectRegion] does not depend on their
    order, and calling it twice with the same region selects no more than
    calling it once. *)
Theorem selectRegion_twice (r r' : LabelRegion) (m : LabelModel) (p : ptr) :
  selected (selectRegion r' (selectRegion r m)) p =
  selected (selectRegion r (selectRegion r' m)) p /\
  selected (selectRegion r (selectRegion r m)) p = selected (selectRegion r m) p.
Proof.
  split; apply eq_iff_eq_true.
  - rewrite !selectRegion_after. tauto.
  - rewrite selectRegion_after, selectRegion_selected. tauto.
Qed.

(** ** addObject and deleteObject *)

Lemma removeOne_absent (x : ptr) (l : list ptr) :
  ~ In x l -> removeOne x l = l.
Proof.
  induction l as [|a l IH]; intros H; simpl; [reflexivity |].
  destruct (Nat.eqb a x) eqn:E.
  - apply Nat.eqb_eq in E. subst. exfalso. apply H. now left.
  - f_equal. apply IH. intros Hin. apply H. now right.
Qed.

Lemma removeOne_app_fresh (x : ptr) (l : list ptr) :
  ~ In x l -> removeOne x (l ++ [x]) = l.
Proof.
  induction l as [|a l IH]; intros H; simpl.
  - now rewrite Nat.eqb_refl.
  - destruct (Nat.eqb a x) eqn:E.
    + apply Nat.eqb_eq in E. subst. exfalso. apply H. now left.
    + f_equal. apply IH. intros Hin. apply H. now right.
Qed.

Lemma removeOne_app_present (x : ptr) (l l' : list ptr) :
  In x l -> removeOne x (l ++ l') = removeOne x l ++ l'.
Proof.
  induction l as [|a l IH]; intros H; simpl; [destruct H |].
  destruct (Nat.eqb a x) eqn:E; [reflexivity |].
  destruct H as [-> | H]; [rewrite Nat.eqb_refl in E; discriminate |].
  simpl. f_equal. now apply IH.
Qed.

(** X16. Adding an object that the list does not hold yet and deleting it again
    restores the object list.  Adding an object that the list holds already
    and deleting it removes its earlier occurrence: the object ends on top. *)
Theorem addObject_then_deleteObject (m : LabelModel) (object : ptr) :
  (~ In object (mObjectList m) ->
   mObjectList (deleteObject object (addObject object m)) = mObjectList m) /\
  (In object (mObjectList m) ->
   mObjectList (deleteObject object (addObject object m)) =
   removeOne object (mObjectList m) ++ [object]).
Proof.
  split; intros H; simpl.
  - now apply removeOne_app_fresh.
  - now apply removeOne_app_present.
Qed.

Lemma addObject_then_deleteObject_witness :
  mObjectList (deleteObject 3 (addObject 3 three_stacked)) = [0; 1; 2] /\
  mObjectList (deleteObject 0 (addObject 0 three_stacked)) = [1; 2; 0].
Proof.
  destruct (addObject_then_deleteObject three_stacked 3) as [Hfresh _].
  destruct (addObject_then_deleteObject three_stacked 0) as [_ Hheld].
  split.
  - apply Hfresh. simpl. intuition discriminate.
  - apply Hheld. simpl. auto.
Defined.

(** X17. Deleting an object that the model does not hold leaves the object list
    and every other object as they are; the object is unselected all the
    same, the modified flag is set, and [objectDeleted] and [changed] are
    emitted. *)
Theorem deleteObject_of_absent_object (m : LabelModel) (object : ptr) :
  ~ In object (mObjectList m) ->
  mObjectList (deleteObject object m) = mObjectList m /\
  (forall p, p <> object -> objects (deleteObject object m) p = objects m p) /\
  selected (deleteObject object m) object = false /\
  mModified (deleteObject object m) = true /\
  emitted (deleteObject object m) = emitted m ++ [objectDeleted object; changed].
Proof.
  intros H. split; [|split; [|split; [|split]]].
  - simpl. now apply removeOne_absent.
  - intros p Hp. simpl. unfold call. now apply upd_other.
  - apply deleteObject_unselects.
  - reflexivity.
  - simpl. now rewrite <- app_assoc.
Qed.

Lemma deleteObject_of_absent_object_witness :
  selected (selectObject 7 three_stacked) 7 = true /\
  mObjectList (deleteObject 7 (selectObject 7 three_stacked)) = [0; 1; 2] /\
  selected (deleteObject 7 (selectObject 7 three_stacked)) 7 = false /\
  mModified (deleteObject 7 (selectObject 7 three_stacked)) = true.
Proof.
  assert (H : ~ In 7 (mObjectList (selectObject 7 three_stacked)))
    by (simpl; intuition discriminate).
  destruct (deleteObject_of_absent_object (selectObject 7 three_stacked) 7 H)
    as [Hl [_ [Hs [Hm _]]]].
  split; [reflexivity | split; [exact Hl | split; [exact Hs | exact Hm]]].
Defined.

Lemma existsb_filter_keep (f : ptr -> bool) (a : ptr) (l : list ptr) :
  f a = true -> existsb (Nat.eqb a) (filter f l) = existsb (Nat.eqb a) l.
Proof.
  intros Ha. induction l as [|x l IH]; simpl; [reflexivity |].
  destruct (f x) eqn:E; simpl; [now rewrite IH |].
  rewrite IH. destruct (Nat.eqb a x) eqn:G; [|reflexivity].
  apply Nat.eqb_eq in G. subst. congruence.
Qed.

Lemma aboveb_filter (f : ptr -> bool) (l : list ptr) (a b : ptr) :
  f a = true -> f b = true -> aboveb (filter f l) a b = aboveb l a b.
Proof.
  intros Ha Hb. induction l as [|x l IH]; simpl; [reflexivity |].
  destruct (f x) eqn:E; simpl.
  - now rewrite IH, existsb_filter_keep.
  - rewrite IH. destruct (Nat.eqb x b) eqn:G; [|reflexivity].
    apply Nat.eqb_eq in G. subst. congruence.
Qed.

Lemma filter_removeOne (x : ptr) (l : list ptr) :
  filter (fun p => negb (Nat.eqb p x)) (removeOne x l) =
  filter (fun p => negb (Nat.eqb p x)) l.
Proof.
  induction l as [|a l IH]; simpl; [reflexivity |].
  destruct (Nat.eqb a x) eqn:E; simpl; [reflexivity |].
  rewrite E. simpl. now rewrite IH.
Qed.

(** X18. [deleteObject] keeps the stacking order of the other objects: of two
    objects other than the deleted one, one is above the other afterwards
    exactly when it was before. *)
Theorem deleteObject_keeps_order (m : LabelModel) (object a b : ptr) :
  a <> object -> b <> object ->
  (above (mObjectList (deleteObject object m)) a b <->
   above (mObjectList m) a b).
Proof.
  intros Ha Hb. rewrite <- !aboveb_above. simpl.
  assert (Fa : negb (Nat.eqb a object) = true)
    by (apply negb_true_iff, Nat.eqb_neq; exact Ha).
  assert (Fb : negb (Nat.eqb b object) = true)
    by (apply negb_true_iff, Nat.eqb_neq; exact Hb).
  rewrite <- (aboveb_filter (fun p => negb (Nat.eqb p object))
                (removeOne object (mObjectList m)) a b Fa Fb).
  rewrite <- (aboveb_filter (fun p => negb (Nat.eqb p object))
                (mObjectList m) a b Fa Fb).
  now rewrite filter_removeOne.
Qed.

Lemma deleteObject_keeps_order_witness :
  above (mObjectList three_stacked) 2 0 /\
  above (mObjectList (deleteObject 1 three_stacked)) 2 0.
Proof.
  assert (H : above (mObjectList three_stacked) 2 0)
    by (exists [], [1], []; reflexivity).
  split; [exact H |].
  apply (@deleteObject_keeps_order three_stacked 1 2 0);
    [discriminate | discriminate | exact H].
Defined.

(** ** deleteSelection *)

Lemma deleteSelection_loop (sl : list ptr) :
  forall m : LabelModel,
    let m' := foreach sl (fun object m => deleteObject object m) m in
    objects m' = foreach sl (fun object h => call unselect object h) (objects m) /\
    mObjectList m' = foreach sl removeOne (mObjectList m) /\
    emitted m' =
    emitted m ++ flat_map (fun object => [objectDeleted object; changed]) sl.
Proof.
  induction sl as [|a sl IH]; intros m; cbv zeta.
  - simpl. now rewrite app_nil_r.
  - rewrite !foreach_cons. destruct (IH (deleteObject a m)) as [H1 [H2 H3]].
    cbv zeta in H1, H2, H3. rewrite H1, H2, H3.
    split; [reflexivity | split; [reflexivity |]].
    simpl. now rewrite <- !app_assoc.
Qed.

Lemma unselect_loop_outside (sl : list ptr) (p : ptr) :
  forall h : store,
    ~ In p sl ->
    foreach sl (fun object h => call unselect object h) h p = h p.
Proof.
  induction sl as [|a sl IH]; intros h Hp; [reflexivity |].
  rewrite foreach_cons, IH by (intros H; apply Hp; now right).
  unfold call. apply upd_other. intros ->. apply Hp. now left.
Qed.

Lemma unselect_twice (o : LabelModelObject) : unselect (unselect o) = unselect o.
Proof. reflexivity. Qed.

Lemma unselect_loop_inside (sl : list ptr) (p : ptr) :
  forall h : store,
    In p sl ->
    foreach sl (fun object h => call unselect object h) h p = unselect (h p).
Proof.
  induction sl as [|a sl IH]; intros h Hp; [destruct Hp |].
  rewrite foreach_cons.
  destruct (in_dec Nat.eq_dec p sl) as [Hin | Hout].
  - rewrite (IH _ Hin). unfold call, upd.
    destruct (Nat.eqb p a) eqn:E; [|reflexivity].
    apply Nat.eqb_eq in E. subst. apply unselect_twice.
  - rewrite (unselect_loop_outside sl p _ Hout).
    destruct Hp as [<- | Hp]; [|contradiction].
    unfold call. apply upd_same.
Qed.

(** X19. The loop of [deleteSelection], run on the list that [getSelection]
    builds, removes every selected object from the object list and unselects
    it: the objects that were not selected remain, untouched and in their
    order, every selected object of the list is as before but for its flag,
    which is cleared, the selection is empty, and the signals are
    [objectDeleted] and [changed] for each deleted object, then [changed] and
    [selectionChanged]. *)
Theorem deleteSelection_given_removes_selection (m : LabelModel) :
  let m' := deleteSelection_given (selectedList m) m in
  mObjectList m' = filter (fun p => negb (selected m p)) (mObjectList m) /\
  (forall p, In p (mObjectList m) -> selected m p = true ->
             objects m' p = unselect (objects m p)) /\
  (forall p, In p (mObjectList m) -> selected m' p = false) /\
  isSelectionEmpty m' = true /\
  (forall p, selected m p = false -> objects m' p = objects m p) /\
  mModified m' = true /\
  emitted m' =
  emitted m ++
  flat_map (fun object => [objectDeleted object; changed]) (selectedList m) ++
  [changed; selectionChanged].
Proof.
  intros m'.
  destruct (deleteSelection_loop (selectedList m) m) as [Ho [Hl He]].
  cbv zeta in Ho, Hl, He.
  assert (Hlist : mObjectList m' =
                  filter (fun p => negb (selected m p)) (mObjectList m)).
  { unfold m', deleteSelection_given. simpl. rewrite Hl, selectedList_filter.
    apply remove_selected. }
  assert (Hkeep : forall p, selected m p = false -> objects m' p = objects m p).
  { intros p Hp. unfold m', deleteSelection_given. simpl. rewrite Ho.
    apply unselect_loop_outside. rewrite selectedList_filter, filter_In.
    intros [_ H]. congruence. }
  assert (Hgone : forall p, In p (mObjectList m) -> selected m p = true ->
                            objects m' p = unselect (objects m p)).
  { intros p Hin Hp. unfold m', deleteSelection_given. simpl. rewrite Ho.
    apply unselect_loop_inside. rewrite selectedList_filter, filter_In.
    now split. }
  assert (Hflags : forall p, In p (mObjectList m) -> selected m' p = false).
  { intros p Hin. destruct (selected m p) eqn:E.
    - unfold selected. now rewrite (Hgone p Hin E).
    - unfold selected. rewrite (Hkeep p E). exact E. }
  split; [exact Hlist | split; [exact Hgone | split; [exact Hflags |]]].
  split; [|split; [exact Hkeep | split]].
  - apply isSelectionEmpty_all_unselected. intros p Hp.
    apply Hflags. rewrite Hlist in Hp. apply filter_In in Hp. tauto.
  - reflexivity.
  - unfold m', deleteSelection_given. simpl. rewrite He.
    now rewrite <- !app_assoc.
Qed.

(** In [three_stacked] the objects 0 and 2 are selected: they leave the list
    and lose their flags, object 1 stays as it is. *)
Lemma deleteSelection_given_removes_selection_witness :
  let m' := deleteSelection_given (selectedList three_stacked) three_stacked in
  mObjectList m' = [1] /\
  selected three_stacked 0 = true /\
  selected m' 0 = false /\
  objects m' 2 = unselect (objects three_stacked 2) /\
  objects m' 1 = objects three_stacked 1.
Proof.
  intros m'.
  destruct (deleteSelection_given_removes_selection three_stacked)
    as [Hl [Hgone [Hflags [_ [Hkeep _]]]]].
  split; [exact Hl | split; [reflexivity | split; [|split]]].
  - apply Hflags. simpl; auto.
  - apply Hgone; [simpl; auto | reflexivity].
  - apply Hkeep. reflexivity.
Defined.

(** ** The capability queries *)

Lemma capability_loop (can : ptr -> bool) (h : store) (l : list ptr)
  (loop : store -> list ptr -> bool) :
  (forall h, loop h [] = false) ->
  (forall h object t,
      loop h (object :: t) =
      if isSelected (h object) && can object then true else loop h t) ->
  (loop h l = true <->
   exists p, In p l /\ isSelected (h p) = true /\ can p = true).
Proof.
  intros Hnil Hcons. induction l as [|a l IH].
  - rewrite Hnil. split; [discriminate | intros [p [[] _]]].
  - rewrite Hcons. destruct (isSelected (h a) && can a) eqn:E.
    + apply andb_true_iff in E. split; [|reflexivity].
      intros _. exists a. split; [now left | exact E].
    + rewrite IH. split.
      * intros [p [Hin Hp]]. exists p. split; [now right | exact Hp].
      * intros [p [[<- | Hin] [Hs Hc]]].
        -- rewrite Hs, Hc in E. discriminate.
        -- exists p. now split.
Qed.

(** X20. Each capability query answers true exactly when the object list holds a
    selected object with that capability; in particular it answers false
    when nothing is selected. *)
Theorem capability_queries (canText canFill canLineColor canLineWidth : ptr -> bool)
  (m : LabelModel) :
  (canSelectionText canText m = true <->
   exists p, In p (mObjectList m) /\ selected m p = true /\ canText p = true) /\
  (canSelectionFill canFill m = true <->
   exists p, In p (mObjectList m) /\ selected m p = true /\ canFill p = true) /\
  (canSelectionLineColor canLineColor m = true <->
   exists p, In p (mObjectList m) /\ selected m p = true /\ canLineColor p = true) /\
  (canSelectionLineWidth canLineWidth m = true <->
   exists p, In p (mObjectList m) /\ selected m p = true /\ canLineWidth p = true).
Proof.
  repeat split; try (apply capability_loop; reflexivity).
  all: intros H; eapply capability_loop; [| | exact H]; reflexivity.
Qed.

(** * Properties of registration *)

Lemma qeqb_refl (a : Db.QString) : Db.qeqb a a = true.
Proof. apply String.eqb_refl. Qed.

Lemma qeqb_sym (a b : Db.QString) : Db.qeqb a b = Db.qeqb b a.
Proof. apply String.eqb_sym. Qed.

Lemma qeqb_trans (a b c : Db.QString) :
  Db.qeqb a b = true -> Db.qeqb b c = true -> Db.qeqb a c = true.
Proof.
  unfold Db.qeqb. rewrite !String.eqb_eq. congruence.
Qed.

Lemma known_find_first (E : Type) (test : E -> bool) (l : list E) :
  known test l = match Db.find_first test l with Some _ => true | None => false end.
Proof.
  induction l as [|a l IH]; simpl; [reflexivity |].
  now destruct (test a).
Qed.

Lemma known_false (E : Type) (test : E -> bool) (l : list E) :
  known test l = false <-> forall e, In e l -> test e = false.
Proof.
  induction l as [|a l IH]; simpl.
  - split; [intros _ e [] | reflexivity].
  - destruct (test a) eqn:E0.
    + split; [discriminate |]. intros H. rewrite <- E0. apply H. now left.
    + rewrite IH. split.
      * intros H e [<- | He]; [exact E0 | now apply H].
      * intros H e He. apply H. now right.
Qed.

Lemma find_first_Some (E : Type) (test : E -> bool) (l : list E) (e : E) :
  Db.find_first test l = Some e -> In e l /\ test e = true.
Proof.
  induction l as [|a l IH]; simpl; [discriminate |].
  destruct (test a) eqn:E0.
  - intros H. injection H as <-. auto.
  - intros H. destruct (IH H). auto.
Qed.

Lemma find_first_app_found (E : Type) (test : E -> bool) (l l' : list E) (e : E) :
  Db.find_first test l = Some e -> Db.find_first test (l ++ l') = Some e.
Proof.
  induction l as [|a l IH]; simpl; [discriminate |].
  now destruct (test a).
Qed.

Lemma find_first_app_new (E : Type) (test : E -> bool) (l : list E) (e : E) :
  known test l = false -> test e = true ->
  Db.find_first test (l ++ [e]) = Some e.
Proof.
  intros Hk He. apply find_first_split; [|exact He].
  now apply known_false.
Qed.

Lemma distinct_keys_app (E : Type) (same : E -> E -> bool) (l : list E) (e : E) :
  distinct_keys same l ->
  (forall a, In a l -> same a e = false) ->
  distinct_keys same (l ++ [e]).
Proof.
  unfold distinct_keys. induction 1 as [|a l Ha Hl IH]; intros He; simpl.
  - repeat constructor.
  - constructor.
    + apply Forall_app. split; [exact Ha |].
      constructor; [apply He; now left | constructor].
    + apply IH. intros b Hb. apply He. now right.
Qed.

(** In a list without two entries of the same key, the search for the key of
    an entry of the list finds that entry. *)
Lemma find_first_distinct (E : Type) (same : E -> E -> bool) (l : list E) (e : E) :
  (forall a, same a a = true) ->
  distinct_keys same l -> In e l ->
  Db.find_first (fun a => same a e) l = Some e.
Proof.
  intros Hrefl. unfold distinct_keys.
  induction 1 as [|a l Ha Hl IH]; intros Hin; [destruct Hin |].
  simpl. destruct Hin as [<- | Hin].
  - now rewrite Hrefl.
  - rewrite Forall_forall in Ha. rewrite (Ha e Hin). now apply IH.
Qed.

(** X21. Registration keeps the registry well formed: an entry whose id (vendor
    name, brand and part) is already known is not added, and the lists of ids
    and names are extended together with the list of entries. *)
Theorem registration_keeps_registry_wf (s : DbState)
  (paper : Db.Paper.t) (category : Db.Category.t) (vendor : Db.Vendor.t)
  (tmplate : Db.Template.t) :
  registry_wf s ->
  registry_wf (registerPaper paper s) /\
  registry_wf (registerCategory category s) /\
  registry_wf (registerVendor vendor s) /\
  registry_wf (registerTemplate tmplate s).
Proof.
  destruct s as [db names].
  intros [P1 [P2 [P3 [C1 [C2 [C3 [V1 [V2 T1]]]]]]]].
  split; [|split; [|split]].
  - unfold registerPaper.
    destruct (isPaperIdKnown db (Db.Paper.id paper)) eqn:K; simpl;
      [repeat split; assumption |].
    repeat split; try assumption.
    + apply distinct_keys_app; [exact P1 |].
      intros a Ha. exact (proj1 (known_false _ _) K a Ha).
    + now rewrite P2, map_app.
    + now rewrite P3, map_app.
  - unfold registerCategory.
    destruct (isCategoryIdKnown db (Db.Category.id category)) eqn:K; simpl;
      [repeat split; assumption |].
    repeat split; try assumption.
    + apply distinct_keys_app; [exact C1 |].
      intros a Ha. exact (proj1 (known_false _ _) K a Ha).
    + now rewrite C2, map_app.
    + now rewrite C3, map_app.
  - unfold registerVendor.
    destruct (isVendorNameKnown db (Db.Vendor.name vendor)) eqn:K; simpl;
      [repeat split; assumption |].
    repeat split; try assumption.
    + apply distinct_keys_app; [exact V1 |].
      intros a Ha. exact (proj1 (known_false _ _) K a Ha).
    + now rewrite V2, map_app.
  - unfold registerTemplate.
    destruct (isTemplateKnown db (Db.Template.brand tmplate)
                (Db.Template.part tmplate)) eqn:K; simpl;
      [repeat split; assumption |].
    repeat split; try assumption.
    apply distinct_keys_app; [exact T1 |].
    intros a Ha. exact (proj1 (known_false _ _) K a Ha).
Qed.

Lemma empty_registry_wf (other : Db.QString) : registry_wf (empty_registry other).
Proof. repeat split; constructor. Qed.

(** Registering A4 a second time changes nothing, and the registry built
    from the empty one by three registrations holds two papers. *)
Lemma registration_keeps_registry_wf_witness :
  registry_wf
    (registerPaper paper_A4
       (registerPaper paper_Letter
          (registerPaper paper_A4 (empty_registry (Db.QStr "Other"))))) /\
  Db.mPapers
    (fst (registerPaper paper_A4
            (registerPaper paper_Letter
               (registerPaper paper_A4 (empty_registry (Db.QStr "Other"))))))
  = [paper_A4; paper_Letter].
Proof.
  split; [|reflexivity].
  apply (registration_keeps_registry_wf _ paper_A4
           (Db.Category.mk Db.QNull Db.QNull) (Db.Vendor.mk Db.QNull Db.QNull)
           template_one).
  apply (registration_keeps_registry_wf _ paper_Letter
           (Db.Category.mk Db.QNull Db.QNull) (Db.Vendor.mk Db.QNull Db.QNull)
           template_one).
  apply (registration_keeps_registry_wf _ paper_A4
           (Db.Category.mk Db.QNull Db.QNull) (Db.Vendor.mk Db.QNull Db.QNull)
           template_one).
  apply empty_registry_wf.
Defined.

(** What registration does to one list: the entry is appended unless its key
    is known; afterwards the search for its key succeeds, and finds the new
    entry when the key was not known. *)
Lemma register_then_find (E : Type) (test : E -> bool) (l : list E) (e : E) :
  test e = true ->
  let l' := if negb (known test l) then l ++ [e] else l in
  exists e', Db.find_first test l' = Some e' /\ test e' = true /\
             (known test l = false -> e' = e) /\
             (known test l = true -> l' = l).
Proof.
  intros He. cbv zeta. destruct (known test l) eqn:K; simpl.
  - rewrite known_find_first in K.
    destruct (Db.find_first test l) as [e'|] eqn:F; [|discriminate].
    exists e'. split; [reflexivity | split; [|split]].
    + exact (proj2 (find_first_Some _ _ F)).
    + discriminate.
    + reflexivity.
  - exists e. split; [now apply find_first_app_new | split; [exact He | split]].
    + reflexivity.
    + discriminate.
Qed.

(** X22. After a paper with a non-empty id has been registered, the lookup of its
    id finds a paper with that id: the paper itself when the id was new,
    and the paper registered earlier when the id was known, in which case
    the registry is unchanged.  The same holds for categories by id, vendors
    by name and templates by brand and part. *)
Theorem register_then_lookup (s : DbState)
  (paper : Db.Paper.t) (category : Db.Category.t) (vendor : Db.Vendor.t)
  (tmplate : Db.Template.t) :
  (Db.isEmpty (Db.Paper.id paper) = false ->
   exists p, Db.lookupPaperFromId (fst (registerPaper paper s)) (Db.Paper.id paper)
             = Returned (Some p) /\
             same_paper_id p paper = true /\
             (isPaperIdKnown (fst s) (Db.Paper.id paper) = false -> p = paper) /\
             (isPaperIdKnown (fst s) (Db.Paper.id paper) = true ->
              registerPaper paper s = s)) /\
  (Db.isEmpty (Db.Category.id category) = false ->
   exists c, Db.lookupCategoryFromId (fst (registerCategory category s))
               (Db.Category.id category) = Returned (Some c) /\
             same_category_id c category = true /\
             (isCategoryIdKnown (fst s) (Db.Category.id category) = false ->
              c = category) /\
             (isCategoryIdKnown (fst s) (Db.Category.id category) = true ->
              registerCategory category s = s)) /\
  (Db.isEmpty (Db.Vendor.name vendor) = false ->
   exists v, Db.lookupVendorFromName (fst (registerVendor vendor s))
               (Db.Vendor.name vendor) = Returned (Some v) /\
             same_vendor_name v vendor = true /\
             (isVendorNameKnown (fst s) (Db.Vendor.name vendor) = false ->
              v = vendor) /\
             (isVendorNameKnown (fst s) (Db.Vendor.name vendor) = true ->
              registerVendor vendor s = s)) /\
  (Db.isEmpty (Db.Template.brand tmplate) = false ->
   Db.isEmpty (Db.Template.part tmplate) = false ->
   exists t, lookupTemplateFromBrandPart (fst (registerTemplate tmplate s))
               (Db.Template.brand tmplate) (Db.Template.part tmplate)
             = Returned (Some t) /\
             same_brand_part t tmplate = true /\
             (isTemplateKnown (fst s) (Db.Template.brand tmplate)
                (Db.Template.part tmplate) = false -> t = tmplate) /\
             (isTemplateKnown (fst s) (Db.Template.brand tmplate)
                (Db.Template.part tmplate) = true ->
              registerTemplate tmplate s = s)).
Proof.
  destruct s as [db names]. cbn [fst]. split; [|split; [|split]].
  - intros Hk.
    destruct (register_then_find
                (fun a => Db.qeqb (Db.Paper.id a) (Db.Paper.id paper))
                (Db.mPapers db) paper (qeqb_refl _))
      as [p [Hf [Ht [Hnew Hold]]]].
    exists p. unfold Db.lookupPaperFromId, registerPaper, isPaperIdKnown.
    rewrite isNull_or_isEmpty, Hk.
    destruct (known _ (Db.mPapers db)); cbn [negb fst Db.mPapers] in *;
      (split; [now rewrite Hf | split; [exact Ht | split; [exact Hnew |]]]);
      [reflexivity | discriminate].
  - intros Hk.
    destruct (register_then_find
                (fun a => Db.qeqb (Db.Category.id a) (Db.Category.id category))
                (Db.mCategories db) category (qeqb_refl _))
      as [p [Hf [Ht [Hnew Hold]]]].
    exists p.
    unfold Db.lookupCategoryFromId, registerCategory, isCategoryIdKnown.
    rewrite isNull_or_isEmpty, Hk.
    destruct (known _ (Db.mCategories db)); cbn [negb fst Db.mCategories] in *;
      (split; [now rewrite Hf | split; [exact Ht | split; [exact Hnew |]]]);
      [reflexivity | discriminate].
  - intros Hk.
    destruct (register_then_find
                (fun a => Db.qeqb (Db.Vendor.name a) (Db.Vendor.name vendor))
                (Db.mVendors db) vendor (qeqb_refl _))
      as [p [Hf [Ht [Hnew Hold]]]].
    exists p.
    unfold Db.lookupVendorFromName, registerVendor, isVendorNameKnown.
    rewrite isNull_or_isEmpty, Hk.
    destruct (known _ (Db.mVendors db)); cbn [negb fst Db.mVendors] in *;
      (split; [now rewrite Hf | split; [exact Ht | split; [exact Hnew |]]]);
      [reflexivity | discriminate].
  - intros Hb Hp.
    assert (Hself : Db.qeqb (Db.Template.brand tmplate) (Db.Template.brand tmplate) &&
                    Db.qeqb (Db.Template.part tmplate) (Db.Template.part tmplate)
                    = true) by now rewrite !qeqb_refl.
    destruct (register_then_find
                (fun a => Db.qeqb (Db.Template.brand a) (Db.Template.brand tmplate) &&
                          Db.qeqb (Db.Template.part a) (Db.Template.part tmplate))
                (Db.mTemplates db) tmplate Hself)
      as [p [Hf [Ht [Hnew Hold]]]].
    exists p.
    unfold lookupTemplateFromBrandPart, registerTemplate, isTemplateKnown.
    assert (Hguard : Db.isNull (Db.Template.brand tmplate) ||
                     Db.isEmpty (Db.Template.brand tmplate) ||
                     Db.isNull (Db.Template.part tmplate) ||
                     Db.isEmpty (Db.Template.part tmplate) = false).
    { rewrite isNull_or_isEmpty, Hb, <- orb_assoc, isNull_or_isEmpty, Hp.
      reflexivity. }
    rewrite Hguard.
    destruct (known _ (Db.mTemplates db)); cbn [negb fst Db.mTemplates] in *;
      (split; [now rewrite Hf | split; [exact Ht | split; [exact Hnew |]]]);
      [reflexivity | discriminate].
Qed.

(** B5 is new to the registry of A4 and US-Letter and is found after its
    registration; A4 is known, and registering it again changes nothing. *)
Lemma register_then_lookup_witness :
  Db.lookupPaperFromId (fst (registerPaper paper_B5 two_papers_state)) (Db.QStr "B5")
  = Returned (Some paper_B5) /\
  registerPaper paper_A4 two_papers_state = two_papers_state.
Proof.
  destruct (register_then_lookup two_papers_state paper_B5
              (Db.Category.mk Db.QNull Db.QNull) (Db.Vendor.mk Db.QNull Db.QNull)
              template_one) as [HB5 _].
  destruct (register_then_lookup two_papers_state paper_A4
              (Db.Category.mk Db.QNull Db.QNull) (Db.Vendor.mk Db.QNull Db.QNull)
              template_one) as [HA4 _].
  destruct (HB5 eq_refl) as [p [Hp [_ [Hnew _]]]].
  destruct (HA4 eq_refl) as [_ [_ [_ [_ Hold]]]].
  split.
  - rewrite (Hnew eq_refl) in Hp. exact Hp.
  - apply Hold. reflexivity.
Defined.

(** X23. A lookup that has found an entry gives the same entry after any further
    registration. *)
Theorem registration_keeps_answers (s : DbState)
  (paper : Db.Paper.t) (category : Db.Category.t) (vendor : Db.Vendor.t)
  (tmplate : Db.Template.t) (k k' : Db.QString) :
  (forall p, Db.lookupPaperFromId (fst s) k = Returned (Some p) ->
             Db.lookupPaperFromId (fst (registerPaper paper s)) k
             = Returned (Some p)) /\
  (forall p, Db.lookupPaperFromName (fst s) k = Returned (Some p) ->
             Db.lookupPaperFromName (fst (registerPaper paper s)) k
             = Returned (Some p)) /\
  (forall c, Db.lookupCategoryFromId (fst s) k = Returned (Some c) ->
             Db.lookupCategoryFromId (fst (registerCategory category s)) k
             = Returned (Some c)) /\
  (forall c, Db.lookupCategoryFromName (fst s) k = Returned (Some c) ->
             Db.lookupCategoryFromName (fst (registerCategory category s)) k
             = Returned (Some c)) /\
  (forall v, Db.lookupVendorFromName (fst s) k = Returned (Some v) ->
             Db.lookupVendorFromName (fst (registerVendor vendor s)) k
             = Returned (Some v)) /\
  (forall t, Db.lookupTemplateFromName (fst s) k = Returned (Some t) ->
             Db.lookupTemplateFromName (fst (registerTemplate tmplate s)) k
             = Returned (Some t)) /\
  (forall t, lookupTemplateFromBrandPart (fst s) k k' = Returned (Some t) ->
             lookupTemplateFromBrandPart (fst (registerTemplate tmplate s)) k k'
             = Returned (Some t)).
Proof.
  destruct s as [db names]. cbn [fst].
  assert (Hfirst : forall (E : Type) (l : list E) (e x : E),
             (y <- Db.first l ;; Returned (Some y)) = Returned (Some x) ->
             (y <- Db.first (l ++ [e]) ;; Returned (Some y)) = Returned (Some x)).
  { intros E l e x. destruct l; simpl; [discriminate | tauto]. }
  assert (Hfind : forall (E : Type) (test : E -> bool) (l : list E) (e x : E),
             Returned (Db.find_first test l) = Returned (Some x) ->
             Returned (Db.find_first test (l ++ [e])) = Returned (Some x)).
  { intros E test l e x H. injection H as H.
    now rewrite (find_first_app_found test l [e] H). }
  repeat split; intros x;
    unfold Db.lookupPaperFromId, Db.lookupPaperFromName,
      Db.lookupCategoryFromId, Db.lookupCategoryFromName,
      Db.lookupVendorFromName, Db.lookupTemplateFromName,
      lookupTemplateFromBrandPart,
      registerPaper, registerCategory, registerVendor, registerTemplate;
    match goal with
    | |- context [negb ?b] => destruct b; cbn [negb fst]; [tauto |]
    end;
    cbn [Db.mPapers Db.mCategories Db.mVendors Db.mTemplates];
    match goal with
    | |- context [if ?g then _ else _] =>
        destruct g; [apply Hfirst | apply Hfind]
    end.
Qed.

Lemma registration_keeps_answers_witness :
  Db.lookupPaperFromName (fst two_papers_state) (Db.QStr "US Letter")
  = Returned (Some paper_Letter) /\
  Db.lookupPaperFromName (fst (registerPaper paper_B5 two_papers_state))
    (Db.QStr "US Letter") = Returned (Some paper_Letter).
Proof.
  split; [reflexivity |].
  destruct (registration_keeps_answers two_papers_state paper_B5
              (Db.Category.mk Db.QNull Db.QNull) (Db.Vendor.mk Db.QNull Db.QNull)
              template_one (Db.QStr "US Letter") Db.QNull) as [_ [H _]].
  apply H. reflexivity.
Defined.

(** X24. For a non-empty id, [isPaperIdKnown] answers true exactly when
    [lookupPaperFromId] finds a paper; likewise for categories by id, vendors
    by name and templates by brand and part. *)
Theorem known_agrees_with_lookup (db : Db.Db) (k k' : Db.QString) :
  Db.isEmpty k = false ->
  (isPaperIdKnown db k = true <->
   exists p, Db.lookupPaperFromId db k = Returned (Some p)) /\
  (isCategoryIdKnown db k = true <->
   exists c, Db.lookupCategoryFromId db k = Returned (Some c)) /\
  (isVendorNameKnown db k = true <->
   exists v, Db.lookupVendorFromName db k = Returned (Some v)) /\
  (Db.isEmpty k' = false ->
   (isTemplateKnown db k k' = true <->
    exists t, lookupTemplateFromBrandPart db k k' = Returned (Some t))).
Proof.
  intros Hk.
  assert (G : forall (E : Type) (test : E -> bool) (l : list E),
             known test l = true <->
             exists e, Returned (Db.find_first test l) = Returned (Some e)).
  { intros E test l. rewrite known_find_first.
    destruct (Db.find_first test l) as [e|].
    - split; [intros _; now exists e | reflexivity].
    - split; [discriminate | intros [e H]; discriminate H]. }
  unfold isPaperIdKnown, isCategoryIdKnown, isVendorNameKnown, isTemplateKnown,
    Db.lookupPaperFromId, Db.lookupCategoryFromId, Db.lookupVendorFromName,
    lookupTemplateFromBrandPart.
  rewrite !isNull_or_isEmpty, Hk.
  split; [apply G | split; [apply G | split; [apply G |]]].
  intros Hk'. cbn [orb].
  assert (Hn : Db.isNull k' = false) by (destruct k'; [discriminate Hk' | reflexivity]).
  rewrite Hn, Hk'. apply G.
Qed.

Lemma known_agrees_with_lookup_witness :
  isPaperIdKnown two_papers (Db.QStr "A4") = true /\
  exists p, Db.lookupPaperFromId two_papers (Db.QStr "A4") = Returned (Some p).
Proof.
  split; [reflexivity |].
  apply (proj1 (proj1 (known_agrees_with_lookup two_papers (Db.QStr "A4") Db.QNull
                         eq_refl))).
  reflexivity.
Defined.

(** X25. In a registry without two papers of the same id, a paper found by its
    name leads back to its own name through its id, provided the id is
    neither empty nor "Other": [lookupPaperIdFromName] gives the id of the
    paper and [lookupPaperNameFromId] of that id gives its name. *)
Theorem paper_name_id_name (db : Db.Db) (name : Db.QString) (p : Db.Paper.t) :
  distinct_keys same_paper_id (Db.mPapers db) ->
  Db.isEmpty name = false ->
  Db.lookupPaperFromName db name = Returned (Some p) ->
  Db.isEmpty (Db.Paper.id p) = false ->
  Db.isPaperIdOther (Db.Paper.id p) = false ->
  Db.lookupPaperIdFromName db name = Returned (Db.Paper.id p) /\
  Db.lookupPaperNameFromId db (Db.Paper.id p) = Returned (Db.Paper.name p) /\
  Db.qeqb (Db.Paper.name p) name = true.
Proof.
  intros Hd Hname Hfound Hid Hother.
  assert (Hf : Db.find_first (fun a => Db.qeqb (Db.Paper.name a) name) (Db.mPapers db)
               = Some p).
  { unfold Db.lookupPaperFromName in Hfound.
    rewrite isNull_or_isEmpty, Hname in Hfound. now injection Hfound. }
  destruct (find_first_Some _ _ Hf) as [Hin Hsame].
  split; [|split; [|exact Hsame]].
  - unfold Db.lookupPaperIdFromName.
    rewrite not_isNull_and_not_isEmpty, Hname, Hfound. reflexivity.
  - unfold Db.lookupPaperNameFromId, Db.lookupPaperFromId.
    rewrite not_isNull_and_not_isEmpty, isNull_or_isEmpty, Hid, Hother.
    cbn [negb bind].
    assert (Hback := @find_first_distinct _ same_paper_id (Db.mPapers db) p
                       (fun a => qeqb_refl (Db.Paper.id a)) Hd Hin).
    unfold same_paper_id in Hback. now rewrite Hback.
Qed.

Lemma paper_name_id_name_witness :
  Db.lookupPaperIdFromName two_papers (Db.QStr "US Letter")
  = Returned (Db.QStr "US-Letter") /\
  Db.lookupPaperNameFromId two_papers (Db.QStr "US-Letter")
  = Returned (Db.QStr "US Letter").
Proof.
  assert (Hd : distinct_keys same_paper_id (Db.mPapers two_papers)).
  { repeat constructor. }
  destruct (@paper_name_id_name two_papers (Db.QStr "US Letter") paper_Letter
              Hd eq_refl eq_refl eq_refl eq_refl) as [H1 [H2 _]].
  split; [exact H1 | exact H2].
Defined.

(** X26. [lookupTemplateFromBrandPart] answers with the first template of the
    registry when the brand or the part is null or empty; otherwise with the
    first template that has this brand and this part, and with NULL when
    there is none. *)
Theorem lookupTemplateFromBrandPart_contract (db : Db.Db) (brand part : Db.QString) :
  (Db.isEmpty brand || Db.isEmpty part = true ->
   forall t rest, Db.mTemplates db = t :: rest ->
                  lookupTemplateFromBrandPart db brand part = Returned (Some t)) /\
  (Db.isEmpty brand || Db.isEmpty part = false ->
   (forall t, In t (Db.mTemplates db) ->
              Db.qeqb (Db.Template.brand t) brand &&
              Db.qeqb (Db.Template.part t) part = false) ->
   lookupTemplateFromBrandPart db brand part = Returned None) /\
  (Db.isEmpty brand || Db.isEmpty part = false ->
   forall pre t post,
     Db.mTemplates db = pre ++ t :: post ->
     (forall t', In t' pre ->
                 Db.qeqb (Db.Template.brand t') brand &&
                 Db.qeqb (Db.Template.part t') part = false) ->
     Db.qeqb (Db.Template.brand t) brand && Db.qeqb (Db.Template.part t) part = true ->
     lookupTemplateFromBrandPart db brand part = Returned (Some t)).
Proof.
  assert (Hguard : Db.isNull brand || Db.isEmpty brand || Db.isNull part ||
                   Db.isEmpty part = Db.isEmpty brand || Db.isEmpty part).
  { destruct brand, part; simpl; try reflexivity;
      now rewrite ?orb_true_r, ?orb_false_r. }
  unfold lookupTemplateFromBrandPart. rewrite Hguard.
  split; [|split].
  - intros -> t rest ->. reflexivity.
  - intros -> Hno. now rewrite find_first_none.
  - intros -> pre t post -> Hpre Ht. now rewrite find_first_split.
Qed.

Lemma lookupTemplateFromBrandPart_contract_witness :
  lookupTemplateFromBrandPart two_templates (Db.QStr "Avery") Db.QNull
  = Returned (Some template_one) /\
  lookupTemplateFromBrandPart two_templates (Db.QStr "Avery") (Db.QStr "5161")
  = Returned (Some template_two) /\
  lookupTemplateFromBrandPart two_templates (Db.QStr "Avery") (Db.QStr "9999")
  = Returned None.
Proof.
  destruct (lookupTemplateFromBrandPart_contract two_templates (Db.QStr "Avery")
              Db.QNull) as [H1 _].
  destruct (lookupTemplateFromBrandPart_contract two_templates (Db.QStr "Avery")
              (Db.QStr "5161")) as [_ [_ H2]].
  destruct (lookupTemplateFromBrandPart_contract two_templates (Db.QStr "Avery")
              (Db.QStr "9999")) as [_ [H3 _]].
  split; [|split].
  - apply (H1 eq_refl template_one [template_two]). reflexivity.
  - apply (H2 eq_refl [template_one] template_two []);
      [reflexivity | | reflexivity].
    intros t' [<- | []]. reflexivity.
  - apply (H3 eq_refl). intros t [<- | [<- | []]]; reflexivity.
Defined.

Lemma similar_loop (differs similar : Db.Template.t -> bool)
  (l : list Db.Template.t) (acc : list Db.QString) :
  foreach l
    (fun tmplate2 list =>
       if differs tmplate2
       then if similar tmplate2 then list ++ [Db.Template.name tmplate2] else list
       else list) acc =
  acc ++ map Db.Template.name (filter (fun t2 => differs t2 && similar t2) l).
Proof.
  revert acc. induction l as [|a l IH]; intros acc.
  - simpl. now rewrite app_nil_r.
  - rewrite foreach_cons, IH. simpl.
    destruct (differs a), (similar a); simpl; try reflexivity.
    now rewrite <- app_assoc.
Qed.

(** X27. For a non-empty name, [getNameListOfSimilarTemplates] returns the empty
    list when no template has the name; otherwise the names, in registry
    order, of the templates that are similar to the first template of that
    name and have another name.  The name asked for is never in the list. *)
Theorem getNameListOfSimilarTemplates_contract
  (isSimilarTo : Db.Template.t -> Db.Template.t -> bool)
  (db : Db.Db) (name : Db.QString) :
  Db.isEmpty name = false ->
  (Db.lookupTemplateFromName db name = Returned None ->
   getNameListOfSimilarTemplates isSimilarTo db name = Returned []) /\
  (forall t1, Db.lookupTemplateFromName db name = Returned (Some t1) ->
     getNameListOfSimilarTemplates isSimilarTo db name =
     Returned
       (map Db.Template.name
          (filter (fun t2 =>
                     negb (Db.qeqb (Db.Template.name t1) (Db.Template.name t2)) &&
                     isSimilarTo t1 t2) (Db.mTemplates db)))) /\
  (forall names, getNameListOfSimilarTemplates isSimilarTo db name = Returned names ->
                 forall n, In n names -> Db.qeqb n name = false).
Proof.
  intros Hname.
  assert (Hsome : forall t1,
             Db.lookupTemplateFromName db name = Returned (Some t1) ->
             getNameListOfSimilarTemplates isSimilarTo db name =
             Returned
               (map Db.Template.name
                  (filter (fun t2 =>
                             negb (Db.qeqb (Db.Template.name t1) (Db.Template.name t2)) &&
                             isSimilarTo t1 t2) (Db.mTemplates db)))).
  { intros t1 H. unfold getNameListOfSimilarTemplates. rewrite H. cbn [bind].
    f_equal.
    apply (similar_loop
             (fun t2 => negb (Db.qeqb (Db.Template.name t1) (Db.Template.name t2)))
             (isSimilarTo t1) (Db.mTemplates db) []). }
  split; [|split; [exact Hsome |]].
  - intros H. unfold getNameListOfSimilarTemplates. now rewrite H.
  - intros names Hnames n Hn.
    assert (Hl : Db.lookupTemplateFromName db name =
                 Returned (Db.find_first
                             (fun t => Db.qeqb (Db.Template.name t) name)
                             (Db.mTemplates db))).
    { unfold Db.lookupTemplateFromName. now rewrite isNull_or_isEmpty, Hname. }
    destruct (Db.find_first (fun t => Db.qeqb (Db.Template.name t) name)
                (Db.mTemplates db)) as [t1|] eqn:F.
    + rewrite (Hsome t1 Hl) in Hnames. injection Hnames as <-.
      apply in_map_iff in Hn. destruct Hn as [t2 [<- Ht2]].
      apply filter_In in Ht2. destruct Ht2 as [_ Ht2].
      apply andb_true_iff in Ht2. destruct Ht2 as [Hdiff _].
      apply negb_true_iff in Hdiff.
      destruct (find_first_Some _ _ F) as [_ Ht1].
      destruct (Db.qeqb (Db.Template.name t2) name) eqn:E; [|reflexivity].
      rewrite qeqb_sym in E.
      rewrite (qeqb_trans _ _ _ Ht1 E) in Hdiff. discriminate.
    + unfold getNameListOfSimilarTemplates in Hnames. rewrite Hl in Hnames.
      cbn [bind] in Hnames. injection Hnames as <-. destruct Hn.
Qed.

(** With every template similar to every other, the list for the first
    template of [two_templates] holds the name of the second one only. *)
Lemma getNameListOfSimilarTemplates_contract_witness :
  getNameListOfSimilarTemplates (fun _ _ => true) two_templates (Db.QStr "Avery 5160")
  = Returned [Db.QStr "Avery 5161"] /\
  getNameListOfSimilarTemplates (fun _ _ => true) two_templates (Db.QStr "Avery 1")
  = Returned [].
Proof.
  destruct (@getNameListOfSimilarTemplates_contract (fun _ _ => true) two_templates
              (Db.QStr "Avery 5160") eq_refl) as [_ [H1 _]].
  destruct (@getNameListOfSimilarTemplates_contract (fun _ _ => true) two_templates
              (Db.QStr "Avery 1") eq_refl) as [H2 _].
  split.
  - rewrite (H1 template_one eq_refl). reflexivity.
  - apply H2. reflexivity.
Defined.
